(** * Mealie recipe ingestion: field normalisers, extractor, image store

    A shallow embedding of [mealie/services/scrape_services.py] and
    [mealie/services/image_services.py], and the properties of the
    ingestion pipeline proved over it.

    Python values are a tagged union [PyVal]; a Python [str] is a list of
    Unicode code points; functions that can raise return a [result].  The
    libraries the services call (the HTML entity table of [html.unescape],
    [slugify], [urlparse], [requests], [scrape_schema_recipe], [extruct])
    are Section variables: the services are embedded once, for every
    behaviour of the libraries. *)

From Stdlib Require Import NArith ZArith Strings.Byte Strings.Ascii DecimalString.
From stdpp Require Import gmap list strings sorting.

Set Warnings "-register-all".
Open Scope N_scope.

(** ** Strings *)

(** A Unicode code point. *)
Definition cp := N.

(** A Python [str]. *)
Definition str := list cp.

(** A literal: the code points of an ASCII string. *)
Fixpoint py (s : string) : str :=
  match s with
  | EmptyString => []
  | String a t => N_of_ascii a :: py t
  end.
Coercion py : string >-> str.

(** Python [bytes]. *)
Definition bytes := list byte.

Fixpoint take_while {A} (p : A → bool) (l : list A) : list A :=
  match l with
  | x :: t => if p x then x :: take_while p t else []
  | [] => []
  end.

Fixpoint drop_while {A} (p : A → bool) (l : list A) : list A :=
  match l with
  | x :: t => if p x then drop_while p t else l
  | [] => []
  end.

Definition is_nil {A} (l : list A) : bool :=
  match l with [] => true | _ => false end.

Definition mem (c : cp) (s : str) : bool := existsb (N.eqb c) s.

Definition between (lo hi c : cp) : bool := (lo <=? c) && (c <=? hi).

(** [str.isspace] on one character: the code points of bidirectional type
    WS, B or S, or of category Zs. *)
Definition isspace (c : cp) : bool :=
  between 9 13 c || between 28 32 c || (c =? 133) || (c =? 160)
  || (c =? 5760) || between 8192 8202 c || (c =? 8232) || (c =? 8233)
  || (c =? 8239) || (c =? 8287) || (c =? 12288).

(** [s.strip()]. *)
Definition strip (s : str) : str :=
  rev (drop_while isspace (rev (drop_while isspace s))).

(** [s.rstrip(chars)]. *)
Definition rstrip (chars : str) (s : str) : str :=
  rev (drop_while (λ c, mem c chars) (rev s)).

(** [s.split(".")[0]]: the text before the first dot. *)
Definition before_dot (s : str) : str :=
  take_while (λ c, negb (c =? 46)) s.

(** ** Values, exceptions, results *)

Inductive PyVal :=
  | PNone
  | PBool (b : bool)
  | PInt (z : Z)
  | PStr (s : str)
  | PList (l : list PyVal)
  | PDict (d : gmap str PyVal).

(** The exceptions the services meet, all of class [Exception].
    [PyException msg] is [Exception(msg)] as the services raise it;
    [LibraryError msg] stands for what a library call raised. *)
Inductive exn :=
  | IndexError
  | KeyError (k : str)
  | TypeError
  | AttributeError
  | PyException (msg : str)
  | LibraryError (msg : str).

(** The outcome of a call.  [Diverge] is not a Python outcome: it marks a
    run of the model that used up the fuel of a loop. *)
Inductive result (A : Type) :=
  | Ok (a : A)
  | Raise (e : exn)
  | Diverge.
Arguments Ok {A} a.
Arguments Raise {A} e.
Arguments Diverge {A}.

Global Instance result_ret : MRet result := λ A a, Ok a.

Global Instance result_bind : MBind result := λ A B k r,
  match r with
  | Ok a => k a
  | Raise e => Raise e
  | Diverge => Diverge
  end.

(** [[f(x) for x in l]]: the first exception ends the comprehension. *)
Fixpoint for_each {A B} (f : A → result B) (l : list A) : result (list B) :=
  match l with
  | [] => Ok []
  | x :: t => y ← f x; ys ← for_each f t; Ok (y :: ys)
  end.

(** Truth value testing, [bool(v)]. *)
Definition truthy (v : PyVal) : bool :=
  match v with
  | PNone => false
  | PBool b => b
  | PInt z => negb (z =? 0)%Z
  | PStr s => negb (is_nil s)
  | PList l => negb (is_nil l)
  | PDict d => negb (is_nil (map_to_list d))
  end.

(** [v == s] for a [str] [s]. *)
Definition eq_str (v : PyVal) (s : str) : bool :=
  match v with
  | PStr t => bool_decide (t = s)
  | _ => false
  end.

(** [v[0]] and [v[-1]] on a list. *)
Definition list_first (l : list PyVal) : result PyVal :=
  match l with
  | x :: _ => Ok x
  | [] => Raise IndexError
  end.

Definition list_last (l : list PyVal) : result PyVal :=
  match last l with
  | Some x => Ok x
  | None => Raise IndexError
  end.

(** [v[k]] for a [str] key [k]: only a dict can be indexed by a string. *)
Definition getitem (v : PyVal) (k : str) : result PyVal :=
  match v with
  | PDict d =>
      match d !! k with
      | Some x => Ok x
      | None => Raise (KeyError k)
      end
  | _ => Raise TypeError
  end.

(** [d.get(k)] on a dict. *)
Definition dict_get (d : gmap str PyVal) (k : str) : PyVal :=
  default PNone (d !! k).

(** [v.strip()]: only a [str] has the method. *)
Definition strip_method (v : PyVal) : result str :=
  match v with
  | PStr s => Ok (strip s)
  | _ => Raise AttributeError
  end.

(** [for x in v]: the items a [for] clause visits.  A [str] yields its
    characters, a dict its keys (in an order the model does not fix). *)
Definition iterate (v : PyVal) : result (list PyVal) :=
  match v with
  | PList l => Ok l
  | PStr s => Ok (map (λ c, PStr [c]) s)
  | PDict d => Ok (map (λ kv, PStr kv.1) (map_to_list d))
  | _ => Raise TypeError
  end.

(** What [requests.get] answers. *)
Record response := { status_code : Z; text : str; raw : bytes }.

(** ** Stand-ins for the libraries

    Fragments of the tables of CPython's [html] module and small versions
    of the library calls, used to run the services on concrete inputs. *)

(** Some entries of [html.entities.html5]. *)
Definition html5_core : gmap str str :=
  list_to_map
    [ (py "amp;", py "&"); (py "amp", py "&");
      (py "lt;", py "<"); (py "lt", py "<");
      (py "gt;", py ">"); (py "gt", py ">");
      (py "quot;", [34]); (py "quot", [34]);
      (py "apos;", [39]); (py "nbsp;", [160]); (py "nbsp", [160]);
      (py "eacute;", [233]); (py "eacute", [233]);
      (py "NotEqualTilde;", [8770; 824]) ].

(** [html._invalid_charrefs]: the Windows-1252 reading of C1 controls. *)
Definition invalid_charrefs_table : gmap N cp :=
  list_to_map
    [ (0x00, 0xFFFD); (0x0D, 0x0D); (0x80, 0x20AC); (0x81, 0x81);
      (0x82, 0x201A); (0x83, 0x0192); (0x84, 0x201E); (0x85, 0x2026);
      (0x86, 0x2020); (0x87, 0x2021); (0x88, 0x02C6); (0x89, 0x2030);
      (0x8A, 0x0160); (0x8B, 0x2039); (0x8C, 0x0152); (0x8D, 0x8D);
      (0x8E, 0x017D); (0x8F, 0x8F); (0x90, 0x90); (0x91, 0x2018);
      (0x92, 0x2019); (0x93, 0x201C); (0x94, 0x201D); (0x95, 0x2022);
      (0x96, 0x2013); (0x97, 0x2014); (0x98, 0x02DC); (0x99, 0x2122);
      (0x9A, 0x0161); (0x9B, 0x203A); (0x9C, 0x0153); (0x9D, 0x9D);
      (0x9E, 0x017E); (0x9F, 0x0178) ].

(** [html._invalid_codepoints]. *)
Definition invalid_codepoints_table (n : N) : bool :=
  between 0x1 0x8 n || between 0xE 0x1F n || between 0x7F 0x9F n
  || between 0xFDD0 0xFDEF n || (n =? 0xB)
  || (between 0xFFFE 0x10FFFF n && (0xFFFE <=? N.land n 0xFFFF)).

(** [str(v)] for the scalars; a list or a dict is only sketched. *)
Definition str_of_value (v : PyVal) : str :=
  match v with
  | PNone => py "None"
  | PBool true => py "True"
  | PBool false => py "False"
  | PInt z => py (NilZero.string_of_int (Z.to_int z))
  | PStr s => s
  | PList _ => py "[...]"
  | PDict _ => py "{...}"
  end.

(** No decimal digit beyond [0-9]: texts in ASCII. *)
Definition ascii_only (c : cp) : bool := false.

Fixpoint squeeze_dashes (after_dash : bool) (s : str) : str :=
  match s with
  | [] => []
  | c :: t =>
      if c =? 45 then
        if after_dash then squeeze_dashes true t
        else c :: squeeze_dashes true t
      else c :: squeeze_dashes false t
  end.

(** [slugify] on a text of ASCII letters, digits, blanks and dashes: lower
    case, every other character a dash, runs of dashes made one, no dash
    at either end. *)
Definition slugify_ascii (s : str) : str :=
  let lower c := if between 65 90 c then c + 32 else c in
  let keep c := if between 97 122 c || between 48 57 c then c else 45 in
  let dashed := squeeze_dashes false (map (λ c, keep (lower c)) s) in
  rev (drop_while (N.eqb 45) (rev (drop_while (N.eqb 45) dashed))).

(** [urlparse(u).path] for [scheme://host/path?query#fragment]. *)
Definition http_path (u : str) : result str :=
  let rest :=
    if bool_decide (py "http://" `prefix_of` u) then drop 7 u
    else if bool_decide (py "https://" `prefix_of` u) then drop 8 u
    else u in
  let from_slash := drop_while (λ c, negb (c =? 47)) rest in
  Ok (take_while (λ c, negb ((c =? 63) || (c =? 35))) from_slash).

(** A page without schema.org data, whatever the HTML or the URL. *)
Definition no_recipes (_ : str) : result (list PyVal) := Ok [].

(** The page of the example: one OpenGraph block with a title and an
    image. *)
Definition chili_opengraph (_ _ : str) : result (list (list (str * str))) :=
  Ok [[(py "og:title", py "Chili"); (py "og:image", py "http://x/y.jpg")]].

(** A page whose one OpenGraph block has an image and no title. *)
Definition untitled_opengraph (_ _ : str)
    : result (list (list (str * str))) :=
  Ok [[(py "og:image", py "http://x/y.jpg")]].

(** The HTML of a page with neither schema.org data nor OpenGraph data. *)
Definition bare_page : str :=
  py "<html><head><title>Chili</title></head><body><p>Chili</p></body></html>".

(** A page without OpenGraph data. *)
Definition no_opengraph (_ _ : str) : result (list (list (str * str))) := Ok [].

Definition page_url (_ url : str) : str := url.

(** A server that answers every request with 200 and three bytes. *)
Definition fetch_ok (_ : str) : result response :=
  Ok {| status_code := 200; text := []; raw := [x01; x02; x03] |}.

(** Two images left under one slug, as two runs of [scrape_image] with
    different URLs leave them. *)
Definition two_cakes : list (str * bytes) :=
  [ (py "carrot-cake.gif", [x09]); (py "carrot-cake.bmp", [x08]) ].

(** A file system that lists the files in the order of the store: the
    place of a name is the number of files before it. *)
Fixpoint position (n : str) (names : list str) : N :=
  match names with
  | [] => 0
  | m :: rest => if decide (m = n) then 0 else N.succ (position n rest)
  end.

Definition oldest_first (st : list (str * bytes)) (n : str) : N :=
  position n st.*1.

(** A file system that lists the files the other way round. *)
Definition newest_first (st : list (str * bytes)) (n : str) : N :=
  position n (rev st.*1).

(** One image under the slug, one under another. *)
Definition one_cake : list (str * bytes) :=
  [ (py "carrot-cake.gif", [x09]); (py "tomato-soup.jpg", [x07]) ].

(** [&] followed by [k] times [amp;]: the text [&] escaped [k] times. *)
Definition escaped_amp (k : nat) : str := 38 :: concat (replicate k (py "amp;")).

(** The image of the slug and the image of a longer slug. *)
Definition deluxe_first : list (str * bytes) :=
  [ (py "carrot-cake-deluxe.jpg", [x05]); (py "carrot-cake.jpg", [x09]) ].

(** A server that has nothing to give. *)
Definition fetch_missing (_ : str) : result response :=
  Ok {| status_code := 404; text := []; raw := [] |}.

(** A page whose structured data hold one empty candidate. *)
Definition empty_candidate (_ : str) : result (list PyVal) := Ok [PDict ∅].

(** A schema.org recipe as the scraper gives it. *)
Definition chili_recipe : gmap str PyVal :=
  list_to_map
    [ (py "name", PStr (py "Chili"));
      (py "totalTime", PStr (py "PT30M"));
      (py "recipeYield", PList [PStr (py "4"); PStr (py "4 servings")]);
      (py "recipeInstructions", PStr (py "1. Mix 2. Cook"));
      (py "recipeIngredient", PList [PStr (py " beans &amp; rice ")]);
      (py "image", PList [PStr (py "http://x/y.jpg")]);
      (py "tags", PList [PStr (py "spicy")]) ].

Definition chili_page (_ : str) : result (list PyVal) :=
  Ok [PDict chili_recipe].

Definition chili_page_twice (_ : str) : result (list PyVal) :=
  Ok [PDict chili_recipe; PDict chili_recipe].

(** ** The services *)

Section Services.

(** *** [html.unescape] *)

(** [html.entities.html5]: entity name to replacement text. *)
Variable html5 : gmap str str.
(** [html._invalid_charrefs]: every value is one character. *)
Variable invalid_charrefs : gmap N cp.
(** Membership in [html._invalid_codepoints]. *)
Variable invalid_codepoints : N → bool.

Definition is_digit (c : cp) : bool := between 48 57 c.

Definition is_hexdigit (c : cp) : bool :=
  is_digit c || between 97 102 c || between 65 70 c.

Definition digit_value (c : cp) : N :=
  if is_digit c then c - 48 else if between 97 102 c then c - 87 else c - 55.

(** [int(ds, base)] on a run of digits. *)
Definition int_of (base : N) (ds : str) : N :=
  fold_left (λ acc d, acc * base + digit_value d) ds 0.

(** The class [[^\t\n\f <&#;]] of the entity-name alternative. *)
Definition name_char (c : cp) : bool :=
  negb (mem c [9; 10; 12; 32; 60; 38; 35; 59]).

(** The optional [;] that ends each alternative. *)
Definition opt_semi (s : str) : str :=
  match s with
  | c :: _ => if c =? 59 then [59] else []
  | [] => []
  end.

(** [#[0-9]+;?] *)
Definition charref_dec (s : str) : option str :=
  match s with
  | c :: t =>
      let ds := take_while is_digit t in
      if (c =? 35) && negb (is_nil ds)
      then Some (c :: ds ++ opt_semi (drop (length ds) t))
      else None
  | [] => None
  end.

(** [#[xX][0-9a-fA-F]+;?] *)
Definition charref_hex (s : str) : option str :=
  match s with
  | c :: x :: t =>
      let hs := take_while is_hexdigit t in
      if (c =? 35) && ((x =? 120) || (x =? 88)) && negb (is_nil hs)
      then Some (c :: x :: hs ++ opt_semi (drop (length hs) t))
      else None
  | _ => None
  end.

(** [[^\t\n\f <&#;]{1,32};?] *)
Definition charref_name (s : str) : option str :=
  let nm := take_while name_char (take 32 s) in
  if is_nil nm then None
  else Some (nm ++ opt_semi (drop (length nm) s)).

(** Group 1 of [_charref] matched at the text that follows an [&]: the
    alternatives are tried in order. *)
Definition match_charref (s : str) : option str :=
  match charref_dec s with
  | Some g => Some g
  | None =>
      match charref_hex s with
      | Some g => Some g
      | None => charref_name s
      end
  end.

(** The replacement of a numeric reference. *)
Definition numeric_charref (num : N) : str :=
  match invalid_charrefs !! num with
  | Some c => [c]
  | None =>
      if between 0xD800 0xDFFF num || (0x10FFFF <? num) then [0xFFFD]
      else if invalid_codepoints num then []
      else [num]
  end.

(** [for x in range(len(s)-1, 1, -1)]: the longest proper prefix of the
    name that is in the table, else the text as it was. *)
Fixpoint longest_prefix (x : nat) (s : str) : str :=
  match x with
  | S (S _ as x') =>
      match html5 !! take x s with
      | Some v => v ++ drop x s
      | None => longest_prefix x' s
      end
  | _ => 38 :: s
  end.

(** The number a numeric reference [#...] names ([t] is the text after
    the [#], which the pattern makes start with a digit or an [x]). *)
Definition charref_number (t : str) : N :=
  match t with
  | x :: h =>
      if (x =? 120) || (x =? 88) then int_of 16 (rstrip (py ";") h)
      else int_of 10 (rstrip (py ";") t)
  | [] => 0
  end.

(** The replacement of a named reference. *)
Definition named_charref (s : str) : str :=
  match html5 !! s with
  | Some v => v
  | None => longest_prefix (length s - 1) s
  end.

(** [_replace_charref] on the text of group 1. *)
Definition replace_charref (s : str) : str :=
  match s with
  | c :: t =>
      if c =? 35 then numeric_charref (charref_number t)
      else named_charref s
  | [] => named_charref s
  end.

(** [_charref.sub(_replace_charref, s)]: the scan of the text from left to
    right; [skip] counts the characters of a match still to be passed. *)
Fixpoint sub_charref (skip : nat) (s : str) : str :=
  match s with
  | [] => []
  | c :: t =>
      match skip with
      | S k => sub_charref k t
      | O =>
          if c =? 38 then
            match match_charref t with
            | Some g => replace_charref g ++ sub_charref (length g) t
            | None => c :: sub_charref 0 t
            end
          else c :: sub_charref 0 t
      end
  end.

(** [html.unescape(s)]. *)
Definition unescape (s : str) : str :=
  if mem 38 s then sub_charref 0 s else s.

(** *** [unescape_html] *)

(** [while not l == (l := html.unescape(l)): pass], with the number of
    calls of [html.unescape] it made.  The loop of the source has no bound
    of its own: [None] is a run that is not over after [fuel] passes. *)
Fixpoint unescape_loop (fuel : nat) (l : str) : option (str * nat) :=
  match fuel with
  | O => None
  | S f =>
      let l' := unescape l in
      if decide (l = l') then Some (l', 1%nat)
      else
        match unescape_loop f l' with
        | Some (r, n) => Some (r, S n)
        | None => None
        end
  end.

(** [html.unescape] starts with [if '&' not in s: return s], which a list
    or a dict passes too; the substitution itself wants a [str]. *)
Definition unescape_html_fuel (fuel : nat) (l : PyVal) : result PyVal :=
  if negb (truthy l) then Ok PNone
  else
    match l with
    | PStr s =>
        match unescape_loop fuel s with
        | Some (r, _) => Ok (PStr r)
        | None => Diverge
        end
    | PList xs =>
        if existsb (λ x, eq_str x (py "&")) xs then Raise TypeError else Ok l
    | PDict d =>
        if bool_decide (is_Some (d !! py "&")) then Raise TypeError else Ok l
    | _ => Raise TypeError
    end.

(** The fuel that [unescape_loop_terminates] shows to be enough: a pass
    that changes the text shortens it. *)
Definition enough_fuel (l : PyVal) : nat :=
  match l with
  | PStr s => S (length s)
  | _ => 1%nat
  end.

Definition unescape_html (l : PyVal) : result PyVal :=
  unescape_html_fuel (enough_fuel l) l.

(** What [unescape_html] makes of a line once its blanks are cut: [None]
    for a blank line, else a text that [html.unescape] leaves as it is and
    that is no longer than the line. *)
Definition decoded (line : str) (out : PyVal) : Prop :=
  if is_nil (strip line) then out = PNone
  else ∃ r : str, out = PStr r ∧ unescape r = r
                  ∧ (length r ≤ length (strip line))%nat.



(** *** The field normalisers *)

(** The builtin [str(v)], which also renders a value in an f-string. *)
Variable py_str : PyVal → str.
(** The decimal digits (category Nd) that [\d] matches beyond [0-9]. *)
Variable other_decimal : cp → bool.

Definition normalize_image_url (image : PyVal) : result PyVal :=
  match image with
  | PList l => list_first l
  | PDict _ => getitem image (py "url")
  | PStr _ => Ok image
  | _ => Raise (PyException (py "Unrecognised image URL format: " ++ py_str image))
  end.

Definition re_digit (c : cp) : bool := is_digit c || other_decimal c.

Definition is_newline (c : cp) : bool := (c =? 10) || (c =? 13).

(** The length of the match of [STEP_SPLITTER], [(?:\d\. ?)|(?:[\n\r]+)],
    at the head of the text. *)
Definition step_match (s : str) : option nat :=
  let newlines := take_while is_newline s in
  let second := if is_nil newlines then None else Some (length newlines) in
  match s with
  | d :: dot :: t =>
      if (dot =? 46) && re_digit d then
        Some (match t with
              | c :: _ => if c =? 32 then 3%nat else 2%nat
              | [] => 2%nat
              end)
      else second
  | _ => second
  end.

(** [STEP_SPLITTER.split(s)]: [cur] holds, last character first, the piece
    being read; [skip] counts the characters of a match still to be passed. *)
Fixpoint step_split (skip : nat) (cur : str) (s : str) : list str :=
  match s with
  | [] => [rev cur]
  | c :: t =>
      match skip with
      | S k => step_split k cur t
      | O =>
          match step_match s with
          | Some n => rev cur :: step_split (pred n) [] t
          | None => step_split 0 (c :: cur) t
          end
      end
  end.

(** The pieces of a split put back around the texts that were matched
    between them. *)
Fixpoint weave (pieces seps : list str) : str :=
  match pieces with
  | [] => []
  | p :: ps =>
      match seps with
      | [] => p
      | m :: ms => p ++ m ++ weave ps ms
      end
  end.

(** The texts that the pattern of a step is to match: a digit and a dot,
    with the space that may follow, or a run of line breaks. *)
Definition step_text (m : str) : Prop :=
  (∃ d, re_digit d = true ∧ (m = [d; 46] ∨ m = [d; 46; 32]))
  ∨ (m ≠ [] ∧ Forall (λ c, is_newline c = true) m).

(** A text with no digit that is followed by a dot. *)
Fixpoint no_step (p : str) : bool :=
  match p with
  | [] => true
  | d :: t =>
      match t with
      | dot :: _ => negb ((dot =? 46) && re_digit d)
      | [] => true
      end && no_step t
  end.

(** [{"text": t}] *)
Definition text_record (t : PyVal) : PyVal := PDict {[ py "text" := t ]}.

(** One round of the comprehension over [HowToStep] dictionaries: [None]
    is an item the [if] clause drops. *)
Definition how_to_step (step : PyVal) : result (option PyVal) :=
  ty ← getitem step (py "@type");
  if eq_str ty (py "HowToStep") then
    tx ← getitem step (py "text");
    line ← strip_method tx;
    t ← unescape_html (PStr line);
    Ok (Some (text_record t))
  else Ok None.

Definition normalize_instructions (instructions : PyVal) : result PyVal :=
  match instructions with
  | PStr s =>
      recs ← for_each
        (λ line, t ← unescape_html (PStr (strip line));
                 Ok (text_record t))
        (filter (λ line, line ≠ []) (step_split 0 [] s));
      Ok (PList recs)
  | PList l =>
      first ← list_first l;
      match first with
      | PStr _ =>
          recs ← for_each
            (λ step, line ← strip_method step;
                     t ← unescape_html (PStr line);
                     Ok (text_record t))
            l;
          Ok (PList recs)
      | PDict _ =>
          ty ← getitem first (py "@type");
          steps ← (if eq_str ty (py "HowToSection")
                   then getitem first (py "itemListElement")
                   else Ok instructions);
          items ← iterate steps;
          recs ← for_each how_to_step items;
          Ok (PList (omap id recs))
      | _ =>
          Raise (PyException
                   (py "Unrecognised instruction format: " ++ py_str instructions))
      end
  | _ =>
      Raise (PyException
               (py "Unrecognised instruction format: " ++ py_str instructions))
  end.

Definition normalize_yield (yld : PyVal) : result PyVal :=
  match yld with
  | PList l => list_last l
  | _ => Ok yld
  end.

(** The function has no branch for a [str]: it runs off its end there,
    which returns [None]. *)
Definition normalize_time (time_entry : PyVal) : PyVal :=
  match time_entry with
  | PNone => PNone
  | PStr _ => PNone
  | _ => PStr (py_str time_entry)
  end.

Definition normalize_ingredients (ingredients : PyVal) : result PyVal :=
  lines ← iterate ingredients;
  out ← for_each
    (λ line, s ← strip_method line;
             unescape_html (PStr s))
    lines;
  Ok (PList out).

Definition normalize_data (recipe_data : gmap str PyVal)
    : result (gmap str PyVal) :=
  description ← unescape_html (dict_get recipe_data (py "description"));
  let d := <[py "description" := description]> recipe_data in
  let d := <[py "totalTime" := normalize_time (dict_get d (py "totalTime"))]> d in
  let d := <[py "prepTime" := normalize_time (dict_get d (py "prepTime"))]> d in
  let d := <[py "performTime" := normalize_time (dict_get d (py "performTime"))]> d in
  yld ← normalize_yield (dict_get d (py "recipeYield"));
  let d := <[py "recipeYield" := yld]> d in
  raw_instructions ← getitem (PDict d) (py "recipeInstructions");
  instructions ← normalize_instructions raw_instructions;
  let d := <[py "recipeInstructions" := instructions]> d in
  raw_ingredients ← getitem (PDict d) (py "recipeIngredient");
  ingredients ← normalize_ingredients raw_ingredients;
  let d := <[py "recipeIngredient" := ingredients]> d in
  image ← normalize_image_url (dict_get d (py "image"));
  Ok (<[py "image" := image]> d).

(** *** The extractor *)

(** [slugify.slugify] on a [str]. *)
Variable slugify : str → str.
(** [scrape_schema_recipe.loads(html, python_objects=True)]. *)
Variable schema_loads : str → result (list PyVal).
(** [scrape_schema_recipe.scrape_url(url, python_objects=True)]. *)
Variable schema_scrape_url : str → result (list PyVal).
(** [w3lib.html.get_base_url(html, url)]. *)
Variable get_base_url : str → str → str.
(** [extruct.extract(html, base_url=b)["opengraph"]]: one item for each
    OpenGraph block of the page, given by its ["properties"] pairs. *)
Variable extruct_opengraph : str → str → result (list (list (str * str))).

(** [slugify(v)]: the library decodes what is not a [str] as bytes, which
    fails on every other value of the model. *)
Definition slugify_call (v : PyVal) : result str :=
  match v with
  | PStr s => Ok (slugify s)
  | _ => Raise TypeError
  end.

Definition process_recipe_data (new_recipe : PyVal) (url : str)
    : result (gmap str PyVal) :=
  name ← getitem new_recipe (py "name");
  slug ← slugify_call name;
  let mealie_tags : gmap str PyVal :=
    list_to_map
      [ (py "slug", PStr slug);
        (py "orgURL", PStr url);
        (py "categories", PList []);
        (py "tags", PList []);
        (py "dateAdded", PNone);
        (py "notes", PList []);
        (py "extras", PList []) ] in
  match new_recipe with
  | PDict d => Ok (mealie_tags ∪ d)
  | _ => Raise AttributeError
  end.

Definition og_values (properties : list (str * str)) (field_name : str)
    : list str :=
  (filter (λ nv, nv.1 = field_name) properties).*2.

(** [next((val for name, val in properties if name == field_name), None)] *)
Definition og_field (properties : list (str * str)) (field_name : str)
    : PyVal :=
  match og_values properties field_name with
  | val :: _ => PStr val
  | [] => PNone
  end.

(** [list({val for name, val in properties if name == field_name})]: the
    values without repetition; Python leaves their order open. *)
Definition og_fields (properties : list (str * str)) (field_name : str)
    : list PyVal :=
  PStr <$> remove_dups (og_values properties field_name).

Definition basic_recipe_from_opengraph (html url : str)
    : result (gmap str PyVal) :=
  let base_url := get_base_url html url in
  opengraph ← extruct_opengraph html base_url;
  match opengraph with
  | [] => Raise IndexError
  | properties :: _ =>
      slug ← slugify_call (og_field properties (py "og:title"));
      Ok (list_to_map
            [ (py "name", og_field properties (py "og:title"));
              (py "description", og_field properties (py "og:description"));
              (py "image", og_field properties (py "og:image"));
              (py "recipeYield", PStr []);
              (py "recipeIngredient",
                 PList [PStr (py "Could not detect ingredients")]);
              (py "recipeInstructions",
                 PList [text_record (PStr (py "Could not detect instructions"))]);
              (py "slug", PStr slug);
              (py "orgURL", og_field properties (py "og:url"));
              (py "categories", PList []);
              (py "tags", PList (og_fields properties (py "og:article:tag")));
              (py "dateAdded", PNone);
              (py "notes", PList []);
              (py "extras", PList []) ])
  end.

(** The result is the recipe dictionary, or the string ["fail"] when the
    first candidate is empty. *)
Definition extract_recipe_from_html (html url : str) : result PyVal :=
  scraped_recipes ← schema_loads html;
  scraped_recipes ← (if is_nil scraped_recipes
                     then schema_scrape_url url
                     else Ok scraped_recipes);
  match scraped_recipes with
  | new_recipe :: _ =>
      if negb (truthy new_recipe) then Ok (PStr (py "fail"))
      else
        new_recipe ← process_recipe_data new_recipe url;
        new_recipe ← normalize_data new_recipe;
        Ok (PDict new_recipe)
  | [] =>
      new_recipe ← basic_recipe_from_opengraph html url;
      Ok (PDict new_recipe)
  end.

(** *** The image store *)

(** The image directory [IMG_DIR]: its files with their contents.  The
    directory is flat: a name is one path component.  The order of the
    list is not the order in which the directory lists its files: see
    [scandir]. *)
Definition store := list (str * bytes).

Fixpoint file_data (name : str) (st : store) : option bytes :=
  match st with
  | [] => None
  | (n, data) :: rest =>
      if decide (n = name) then Some data else file_data name rest
  end.

(** [IMG_DIR.joinpath(name).is_file()] *)
Definition is_file (name : str) (st : store) : bool :=
  bool_decide (is_Some (file_data name st)).

(** The place the file system gives a name in the listing of the
    directory.  The code fixes no order; the place may depend on the whole
    directory, so every order of the files is the listing for some
    [scandir_rank]. *)
Variable scandir_rank : store → str → N.

(** [os.scandir(IMG_DIR)]: the names of the files, in the order of the
    file system. *)
Definition listed_before (st : store) (a b : str) : Prop :=
  (scandir_rank st a ≤ scandir_rank st b)%N.

#[global] Instance listed_before_dec (st : store) (a b : str) :
  Decision (listed_before st a b).
Proof. unfold listed_before. apply _. Defined.

Definition scandir (st : store) : list str :=
  merge_sort (listed_before st) st.*1.

(** [IMG_DIR.glob(f"{stem}*")], in the order of the listing.  The stem is
    part of a pattern: the definition is that of the source for a stem
    that is [plain] only, where the files found are those whose names
    start with the stem.  A stem with [?], [[] or [*] is a pattern with
    more wildcards, which this definition does not follow: the theorems
    on [glob_star] take the slug to be [plain]. *)
Definition glob_star (stem : str) (st : store) : list str :=
  filter (λ n, stem `prefix_of` n) (scandir st).

(** Text that names one file of the flat directory and that a pattern
    takes literally: no NUL, no path separator, none of the wildcards
    [*], [?] and [[]. *)
Definition plain (s : str) : bool :=
  forallb (λ c, negb (mem c [0; 42; 47; 63; 91])) s.

(** The names [.] and [..], which [pathlib] reads as the directory itself
    and its parent: no file has such a name, and [open] fails on it. *)
Definition dot_name (n : str) : bool :=
  bool_decide (n = py ".") || bool_decide (n = py "..").

(** [file.unlink()] *)
Definition unlink (name : str) (st : store) : store :=
  filter (λ f, f.1 ≠ name) st.

(** [open(name, "ab")] and a write: the data go to the end of the file,
    which is created when it is not there.  Where the listing shows a
    created file is up to [scandir_rank]. *)
Definition append_file (name : str) (data : bytes) (st : store) : store :=
  match file_data name st with
  | Some _ => (λ f, if decide (f.1 = name) then (f.1, f.2 ++ data) else f) <$> st
  | None => st ++ [(name, data)]
  end.

(** [open(name, "wb")] and a write: the data replace the file. *)
Definition write_file (name : str) (data : bytes) (st : store) : store :=
  match file_data name st with
  | Some _ => (λ f, if decide (f.1 = name) then (f.1, data) else f) <$> st
  | None => st ++ [(name, data)]
  end.

(** The path of the file found, [None] when the loop ends with no file. *)
Definition read_image (recipe_slug : str) (st : store) : option str :=
  if is_file recipe_slug st then Some recipe_slug
  else head (glob_star (before_dot recipe_slug) st).

(** The loop returns at its first file. *)
Definition delete_image (recipe_slug : str) (st : store) : store :=
  match glob_star (before_dot recipe_slug) st with
  | file :: _ => unlink file st
  | [] => st
  end.

Definition write_image (recipe_slug : str) (file_data : bytes)
    (extension : str) (st : store) : str * store :=
  let st := delete_image recipe_slug st in
  let image_path := recipe_slug ++ py "." ++ extension in
  (image_path, append_file image_path file_data st).

(** [urllib.parse.urlparse(url).path] *)
Variable urlparse_path : str → result str.

(** [requests.get(url)] *)
Variable requests_get : str → result response.

(** The components of a path as [pathlib] keeps them: empty components
    and [.] are dropped. *)
Fixpoint split_slash (cur : str) (s : str) : list str :=
  match s with
  | [] => [rev cur]
  | c :: t => if c =? 47 then rev cur :: split_slash [] t
              else split_slash (c :: cur) t
  end.

Definition path_parts (p : str) : list str :=
  filter (λ part, part ≠ [] ∧ part ≠ py ".") (split_slash [] p).

(** [Path(p).name] *)
Definition path_name (p : str) : str := default [] (last (path_parts p)).

(** [Path(p).suffix]: the name from its last dot on, when that dot is
    neither the first nor the last character of the name. *)
Definition path_suffix (p : str) : str :=
  let name := path_name p in
  let ext := rev (take_while (λ c, negb (c =? 46)) (rev name)) in
  if mem 46 name && negb (is_nil ext) && (S (length ext) <? length name)%nat
  then 46 :: ext
  else [].

(** The three shapes of an image source, tested one after the other. *)
Definition resolve_image_url (image_url : PyVal) : result PyVal :=
  image_url ← match image_url with
              | PList l => list_first l
              | _ => Ok image_url
              end;
  Ok match image_url with
     | PDict d => default image_url (d !! py "url")
     | _ => image_url
     end.

(** [slug + "." + extension] *)
Definition add_extension (slug : PyVal) (extension : str) : result str :=
  match slug with
  | PStr s => Ok (s ++ py "." ++ extension)
  | _ => Raise TypeError
  end.

(** The URL to fetch and the file name below [IMG_DIR].  [urlparse]
    decodes what is not a [str] as bytes: a true value has no [decode],
    and the empty bytes path of a false one is no [Path]. *)
Definition image_target (image_url slug : PyVal) : result (str * str) :=
  image_url ← resolve_image_url image_url;
  match image_url with
  | PStr u =>
      path ← urlparse_path u;
      let extension := path_suffix path in
      filename ← add_extension slug extension;
      Ok (u, filename)
  | _ => if truthy image_url then Raise AttributeError else Raise TypeError
  end.

(** The path returned is the file name below [IMG_DIR]; a failed fetch is
    logged and answered with [None]. *)
Definition scrape_image (image_url slug : PyVal) (st : store)
    : result (option str) * store :=
  match image_target image_url slug with
  | Ok (u, filename) =>
      match requests_get u with
      | Ok r =>
          if (status_code r =? 200)%Z
          then (Ok (Some filename), write_file filename (raw r) st)
          else (Ok None, st)
      | Raise _ => (Ok None, st)
      | Diverge => (Diverge, st)
      end
  | Raise e => (Raise e, st)
  | Diverge => (Diverge, st)
  end.

(** *** The ingestion pipeline *)

(** [recipe["image"] = v]: only a dict of the model takes the item. *)
Definition set_image (recipe : PyVal) (v : PyVal) : result PyVal :=
  match recipe with
  | PDict d => Ok (PDict (<[py "image" := v]> d))
  | _ => Raise TypeError
  end.

(** [try: ... except Exception: recipe["image"] = None].  [recipe.get]
    raises on what is no dict, and [img_path.name] on a path that is
    [None]; both are caught like what [scrape_image] raises. *)
Definition download_image_for_recipe (recipe : PyVal) (st : store)
    : result PyVal * store :=
  match recipe with
  | PDict d =>
      match scrape_image (dict_get d (py "image")) (dict_get d (py "slug")) st with
      | (Ok (Some img_path), st') =>
          (set_image recipe (PStr (path_name img_path)), st')
      | (Ok None, st') => (set_image recipe PNone, st')
      | (Raise _, st') => (set_image recipe PNone, st')
      | (Diverge, st') => (Diverge, st')
      end
  | _ => (set_image recipe PNone, st)
  end.

Definition process_recipe_url (url : str) (st : store)
    : result PyVal * store :=
  match requests_get url with
  | Ok r =>
      match extract_recipe_from_html (text r) url with
      | Ok new_recipe => download_image_for_recipe new_recipe st
      | Raise e => (Raise e, st)
      | Diverge => (Diverge, st)
      end
  | Raise e => (Raise e, st)
  | Diverge => (Diverge, st)
  end.


(** ** Properties *)

(** *** Scanning lemmas *)

Lemma take_while_prefix {A} (p : A → bool) (l : list A) :
  take_while p l `prefix_of` l.
Proof.
  induction l as [|x l IH]; simpl; [done|].
  destruct (p x); [by apply prefix_cons | apply prefix_nil].
Qed.

Lemma opt_semi_prefix (s : str) : opt_semi s `prefix_of` s.
Proof.
  destruct s as [|c t]; simpl; [done|].
  destruct (N.eqb_spec c 59) as [->|]; [|apply prefix_nil].
  apply prefix_cons, prefix_nil.
Qed.

Lemma prefix_drop_eq {A} (p l : list A) :
  p `prefix_of` l → l = p ++ drop (length p) l.
Proof. intros [k ->]. by rewrite drop_app_length. Qed.

Lemma prefix_app_drop {A} (p q l : list A) :
  p `prefix_of` l → q `prefix_of` drop (length p) l → (p ++ q) `prefix_of` l.
Proof.
  intros Hp Hq. rewrite (prefix_drop_eq p l Hp) at 1.
  by apply prefix_app.
Qed.

Lemma charref_dec_prefix (s g : str) : charref_dec s = Some g → g `prefix_of` s.
Proof.
  unfold charref_dec. destruct s as [|c t]; [done|].
  case_match; [|done]. intros [= <-].
  apply prefix_cons.
  apply prefix_app_drop; [apply take_while_prefix | apply opt_semi_prefix].
Qed.

Lemma charref_hex_prefix (s g : str) : charref_hex s = Some g → g `prefix_of` s.
Proof.
  unfold charref_hex. destruct s as [|c [|x t]]; try done.
  case_match; [|done]. intros [= <-].
  do 2 apply prefix_cons.
  apply prefix_app_drop; [apply take_while_prefix | apply opt_semi_prefix].
Qed.

Lemma charref_name_prefix (s g : str) : charref_name s = Some g → g `prefix_of` s.
Proof.
  unfold charref_name. case_match; [done|]. intros [= <-].
  apply prefix_app_drop; [|apply opt_semi_prefix].
  etrans; [apply take_while_prefix|]. apply prefix_take.
Qed.

Lemma match_charref_prefix (s g : str) :
  match_charref s = Some g → g `prefix_of` s.
Proof.
  unfold match_charref.
  destruct (charref_dec s) eqn:Hd; [intros [= <-]; by apply charref_dec_prefix|].
  destruct (charref_hex s) eqn:Hh; [intros [= <-]; by apply charref_hex_prefix|].
  apply charref_name_prefix.
Qed.

Lemma sub_charref_skip (n : nat) (s : str) :
  sub_charref n s = sub_charref 0 (drop n s).
Proof.
  revert n. induction s as [|c t IH]; intros [|n]; simpl; auto.
Qed.

Lemma sub_charref_cons (c : cp) (t : str) :
  sub_charref 0 (c :: t) =
    if c =? 38 then
      match match_charref t with
      | Some g => replace_charref g ++ sub_charref 0 (drop (length g) t)
      | None => c :: sub_charref 0 t
      end
    else c :: sub_charref 0 t.
Proof.
  simpl sub_charref. destruct (c =? 38); [|done].
  destruct (match_charref t); [|done]. by rewrite sub_charref_skip.
Qed.

(** The scan at an [&] that starts a reference, and at any other place. *)
Lemma sub_charref_match (g rest : str) :
  match_charref (g ++ rest) = Some g →
  sub_charref 0 (38 :: g ++ rest) = replace_charref g ++ sub_charref 0 rest.
Proof.
  intros Hm. rewrite sub_charref_cons, Hm. simpl.
  by rewrite drop_app_length.
Qed.

Lemma sub_charref_no_amp (s : str) : mem 38 s = false → sub_charref 0 s = s.
Proof.
  induction s as [|c t IH]; [done|].
  change (mem 38 (c :: t)) with ((38 =? c) || mem 38 t).
  intros [Hc Ht]%orb_false_elim.
  rewrite sub_charref_cons, N.eqb_sym, Hc. by rewrite IH.
Qed.

Lemma unescape_no_amp (s : str) : mem 38 s = false → unescape s = s.
Proof. unfold unescape. by intros ->. Qed.

(** *** A pass of [html.unescape] that changes the text shortens it *)

(** No replacement is longer than the name it stands for: in
    [html.entities.html5] a name has two characters or more and a
    replacement two or fewer. *)
Hypothesis html5_short :
  ∀ k v : str, html5 !! k = Some v → (length v ≤ length k)%nat.

Lemma numeric_charref_length (num : N) : (length (numeric_charref num) ≤ 1)%nat.
Proof. unfold numeric_charref. repeat case_match; simpl; lia. Qed.

Lemma longest_prefix_length (x : nat) (s : str) :
  (x ≤ length s)%nat →
  (length (longest_prefix x s) ≤ length s)%nat ∨ longest_prefix x s = 38 :: s.
Proof.
  induction x as [|x IH]; intros Hx; [by right|].
  destruct x as [|x]; [by right|].
  simpl. destruct (html5 !! _) as [v|] eqn:Hv.
  - left. apply html5_short in Hv.
    rewrite length_take in Hv. rewrite length_app, length_drop. lia.
  - apply IH. lia.
Qed.

Lemma replace_charref_length (g : str) :
  (length (replace_charref g) ≤ length g)%nat ∨ replace_charref g = 38 :: g.
Proof.
  assert (Hnamed : (length (named_charref g) ≤ length g)%nat
                   ∨ named_charref g = 38 :: g).
  { unfold named_charref. destruct (html5 !! g) as [v|] eqn:Hv.
    - left. by apply html5_short.
    - apply longest_prefix_length. lia. }
  destruct g as [|c t]; [done|]. simpl replace_charref.
  destruct (c =? 35); [|done].
  left. pose proof (numeric_charref_length (charref_number t)). simpl. lia.
Qed.

Lemma sub_charref_length (s : str) :
  (length (sub_charref 0 s) ≤ length s)%nat
  ∧ (length (sub_charref 0 s) = length s → sub_charref 0 s = s).
Proof.
  remember (length s) as n eqn:Hn. revert s Hn.
  induction n as [n IH] using lt_wf_ind. intros [|c t] ->; [done|].
  rewrite sub_charref_cons.
  assert (Hlit : (length (c :: sub_charref 0 t) ≤ length (c :: t))%nat
                 ∧ (length (c :: sub_charref 0 t) = length (c :: t)
                    → c :: sub_charref 0 t = c :: t)).
  { destruct (IH (length t) ltac:(simpl; lia) t eq_refl) as [Hle Heq].
    simpl. split; [lia|]. intros [= Hl]. by rewrite Heq. }
  destruct (N.eqb_spec c 38) as [->|]; [|done].
  destruct (match_charref t) as [g|] eqn:Hm; [|done].
  apply match_charref_prefix, prefix_drop_eq in Hm.
  set (rest := drop (length g) t) in *.
  assert (Hlen : length t = (length g + length rest)%nat)
    by (by rewrite Hm at 1; rewrite length_app).
  destruct (IH (length rest) ltac:(simpl; lia) rest eq_refl) as [Hle Heq].
  rewrite length_app. simpl length.
  destruct (replace_charref_length g) as [Hg | ->]; [split; lia|].
  simpl length. split; [lia|]. intros Hl.
  rewrite Heq by lia. simpl. by rewrite <- Hm.
Qed.

Lemma unescape_length (s : str) :
  (length (unescape s) ≤ length s)%nat
  ∧ (length (unescape s) = length s → unescape s = s).
Proof.
  unfold unescape. destruct (mem 38 s); [apply sub_charref_length | done].
Qed.

Lemma unescape_shorter (s : str) :
  unescape s ≠ s → (length (unescape s) < length s)%nat.
Proof.
  intros Hne. destruct (unescape_length s) as [Hle Heq].
  destruct (decide (length (unescape s) = length s)); [by destruct Hne; auto | lia].
Qed.

(** *** The loop of [unescape_html] *)

Lemma unescape_loop_more_fuel (fuel fuel' : nat) (l : str) (out : str * nat) :
  (fuel ≤ fuel')%nat →
  unescape_loop fuel l = Some out → unescape_loop fuel' l = Some out.
Proof.
  revert fuel' l out. induction fuel as [|f IH]; intros [|f'] l out Hle; try done.
  { lia. }
  simpl. case_decide; [done|].
  destruct (unescape_loop f _) as [[r n]|] eqn:Hrun; [|done].
  by rewrite (IH f' _ _ ltac:(lia) Hrun).
Qed.

Lemma unescape_loop_fixed_point (fuel : nat) (l r : str) (n : nat) :
  unescape_loop fuel l = Some (r, n) → unescape r = r.
Proof.
  revert l n. induction fuel as [|f IH]; intros l n; [done|].
  simpl. case_decide as Heq.
  - intros [= <- _]. by rewrite <- Heq.
  - destruct (unescape_loop f _) as [[r' n']|] eqn:Hrun; [|done].
    intros [= <- _]. eauto.
Qed.

Lemma unescape_loop_terminates (fuel : nat) (l : str) :
  (length l < fuel)%nat →
  ∃ r n, unescape_loop fuel l = Some (r, n) ∧ (1 ≤ n ≤ S (length l))%nat.
Proof.
  revert l. induction fuel as [|f IH]; intros l Hf; [lia|].
  simpl. case_decide as Heq.
  - exists (unescape l), 1%nat. split; [done | lia].
  - assert (Hne : unescape l ≠ l) by congruence.
    apply unescape_shorter in Hne.
    destruct (IH (unescape l) ltac:(lia)) as (r & n & -> & Hn).
    exists r, (S n). split; [done | lia].
Qed.

Lemma sub_charref_literal (p rest : str) :
  mem 38 p = false → sub_charref 0 (p ++ rest) = p ++ sub_charref 0 rest.
Proof.
  induction p as [|c p IH]; [done|].
  change (mem 38 (c :: p)) with ((38 =? c) || mem 38 p).
  intros [Hc Hp]%orb_false_elim.
  rewrite <- app_comm_cons, sub_charref_cons, N.eqb_sym, Hc. by rewrite IH.
Qed.

Lemma replace_charref_named (g v : str) :
  html5 !! g = Some v → mem 35 (take 1 g) = false → replace_charref g = v.
Proof.
  intros Hv Hh. unfold replace_charref, named_charref. rewrite Hv.
  destruct g as [|c t]; [done|].
  change (mem 35 (take 1 (c :: t))) with ((35 =? c) || false) in Hh.
  apply orb_false_elim in Hh as [Hc _]. by rewrite N.eqb_sym, Hc.
Qed.

Lemma unescape_loop_step (fuel : nat) (l : str) :
  unescape l ≠ l →
  unescape_loop (S fuel) l =
    match unescape_loop fuel (unescape l) with
    | Some (r, n) => Some (r, S n)
    | None => None
    end.
Proof. intros Hne. simpl. case_decide; [by destruct Hne | done]. Qed.

Lemma unescape_loop_stop (fuel : nat) (l : str) :
  unescape l = l → unescape_loop (S fuel) l = Some (l, 1%nat).
Proof. intros Heq. simpl. rewrite Heq. by case_decide. Qed.

(** The loop on a text, whatever the fuel above its length. *)
Lemma unescape_html_str (s r : str) (n : nat) :
  s ≠ [] → unescape_loop (S (length s)) s = Some (r, n) →
  unescape_html (PStr s) = Ok (PStr r).
Proof.
  intros Hs Hrun. unfold unescape_html, unescape_html_fuel, enough_fuel.
  destruct s; [done|]. cbv [truthy is_nil negb]. by rewrite Hrun.
Qed.

(** *** The triple-escaped example, pass by pass *)

Section Example.

Hypothesis html5_amp : html5 !! py "amp;" = Some (py "&").
Hypothesis html5_lt : html5 !! py "lt;" = Some (py "<").
Hypothesis html5_gt : html5 !! py "gt;" = Some (py ">").

Lemma unescape_example_pass1 :
  unescape (py "&amp;amp;lt;b&amp;amp;gt;") = py "&amp;lt;b&amp;gt;".
Proof.
  unfold unescape.
  change (py "&amp;amp;lt;b&amp;amp;gt;")
    with (38 :: py "amp;" ++ py "amp;lt;b" ++ 38 :: py "amp;" ++ py "amp;gt;").
  change (mem _ _) with true. cbv iota.
  rewrite sub_charref_match by reflexivity.
  rewrite (replace_charref_named _ _ html5_amp) by reflexivity.
  rewrite sub_charref_literal by reflexivity.
  rewrite sub_charref_match by reflexivity.
  rewrite (replace_charref_named _ _ html5_amp) by reflexivity.
  by rewrite sub_charref_no_amp by reflexivity.
Qed.

Lemma unescape_example_pass2 :
  unescape (py "&amp;lt;b&amp;gt;") = py "&lt;b&gt;".
Proof.
  unfold unescape.
  change (py "&amp;lt;b&amp;gt;")
    with (38 :: py "amp;" ++ py "lt;b" ++ 38 :: py "amp;" ++ py "gt;").
  change (mem _ _) with true. cbv iota.
  rewrite sub_charref_match by reflexivity.
  rewrite (replace_charref_named _ _ html5_amp) by reflexivity.
  rewrite sub_charref_literal by reflexivity.
  rewrite sub_charref_match by reflexivity.
  rewrite (replace_charref_named _ _ html5_amp) by reflexivity.
  by rewrite sub_charref_no_amp by reflexivity.
Qed.

Lemma unescape_example_pass3 : unescape (py "&lt;b&gt;") = py "<b>".
Proof.
  unfold unescape.
  change (py "&lt;b&gt;")
    with (38 :: py "lt;" ++ py "b" ++ 38 :: py "gt;" ++ []).
  change (mem _ _) with true. cbv iota.
  rewrite sub_charref_match by reflexivity.
  rewrite (replace_charref_named _ _ html5_lt) by reflexivity.
  rewrite sub_charref_literal by reflexivity.
  rewrite sub_charref_match by reflexivity.
  by rewrite (replace_charref_named _ _ html5_gt) by reflexivity.
Qed.

Lemma unescape_loop_example :
  unescape_loop 4 (py "&amp;amp;lt;b&amp;amp;gt;") = Some (py "<b>", 4%nat).
Proof.
  rewrite unescape_loop_step, unescape_example_pass1
    by (rewrite unescape_example_pass1; by vm_compute).
  rewrite unescape_loop_step, unescape_example_pass2
    by (rewrite unescape_example_pass2; by vm_compute).
  rewrite unescape_loop_step, unescape_example_pass3
    by (rewrite unescape_example_pass3; by vm_compute).
  by rewrite unescape_loop_stop by reflexivity.
Qed.

End Example.

(** *** A text that needs as many passes as one likes *)

Lemma escaped_amp_no_amp (k : nat) :
  mem 38 (concat (replicate k (py "amp;"))) = false.
Proof. induction k as [|k IH]; [done|]. simpl. exact IH. Qed.

Lemma unescape_escaped_amp (k : nat) :
  html5 !! py "amp;" = Some (py "&") →
  unescape (escaped_amp (S k)) = escaped_amp k.
Proof.
  intros Hamp. unfold unescape, escaped_amp.
  change (mem 38 (38 :: _)) with true. cbv iota.
  change (concat (replicate (S k) (py "amp;")))
    with (py "amp;" ++ concat (replicate k (py "amp;"))).
  rewrite sub_charref_match by reflexivity.
  rewrite (replace_charref_named _ _ Hamp) by reflexivity.
  by rewrite sub_charref_no_amp by apply escaped_amp_no_amp.
Qed.

Lemma unescape_loop_escaped_amp (k fuel : nat) :
  html5 !! py "amp;" = Some (py "&") →
  (k < fuel)%nat →
  unescape_loop fuel (escaped_amp k) = Some (py "&", S k).
Proof.
  intros Hamp. revert fuel. induction k as [|k IH]; intros [|fuel] Hf; try lia.
  - by rewrite unescape_loop_stop.
  - rewrite unescape_loop_step, unescape_escaped_amp by
      (try rewrite unescape_escaped_amp by done; try done;
       intros Heq%(f_equal length); unfold escaped_amp in Heq;
       simpl in Heq; lia).
    by rewrite IH by lia.
Qed.

(** *** The claims on [unescape_html] *)

(** C6 (as amended): [unescape_html] ends on every string, and it does so
    by the convergence of the text alone.  A pass that changes the text
    shortens it, so a text of [n] characters is done after at most [n + 1]
    passes, whatever fuel above [n] the model is given; the bound grows
    with the text, the loop has no cap of its own. *)
Theorem unescape_html_terminates (s : str) :
  ∃ (r : str) (n : nat),
    (∀ fuel, (length s < fuel)%nat → unescape_loop fuel s = Some (r, n))
    ∧ (1 ≤ n ≤ S (length s))%nat
    ∧ unescape r = r
    ∧ unescape_html (PStr s) = if is_nil s then Ok PNone else Ok (PStr r).
Proof.
  destruct (unescape_loop_terminates (S (length s)) s ltac:(lia))
    as (r & n & Hrun & Hn).
  exists r, n. repeat split; try lia.
  - intros fuel Hf. by apply (unescape_loop_more_fuel (S (length s))); [lia|].
  - by eapply unescape_loop_fixed_point.
  - destruct s as [|c t]; [done|]. by eapply unescape_html_str.
Qed.

(** C7: [unescape_html] decodes the triple-escaped text
    ["&amp;amp;lt;b&amp;amp;gt;"] to ["<b>"] (in every entity table that has
    [amp;], [lt;] and [gt;]), and on every non-empty text its result is a
    text that one more pass of [html.unescape] leaves as it is. *)
Theorem unescape_html_fixed_point :
  html5 !! py "amp;" = Some (py "&") →
  html5 !! py "lt;" = Some (py "<") →
  html5 !! py "gt;" = Some (py ">") →
  unescape_html (PStr (py "&amp;amp;lt;b&amp;amp;gt;")) = Ok (PStr (py "<b>"))
  ∧ ∀ s : str, s ≠ [] →
      ∃ r : str, unescape_html (PStr s) = Ok (PStr r) ∧ unescape r = r.
Proof.
  intros Hamp Hlt Hgt. split.
  - apply (unescape_html_str _ _ 4); [done|].
    apply (unescape_loop_more_fuel 4); [simpl; lia|].
    by apply unescape_loop_example.
  - intros s Hs.
    destruct (unescape_loop_terminates (S (length s)) s ltac:(lia))
      as (r & n & Hrun & _).
    exists r. split.
    + by eapply unescape_html_str.
    + by eapply unescape_loop_fixed_point.
Qed.

(** *** The field normalisers *)

(** C1: on a string [normalize_time] runs off its end and answers [None];
    the string is not passed through. *)
Theorem normalize_time_str (s : str) : normalize_time (PStr s) = PNone.
Proof. reflexivity. Qed.

Lemma normalize_time_none : normalize_time PNone = PNone.
Proof. reflexivity. Qed.

Lemma normalize_time_other (v : PyVal) :
  match v with
  | PNone | PStr _ => True
  | _ => normalize_time v = PStr (py_str v)
  end.
Proof. by destruct v. Qed.

(** C5: a URL given as a string, as a one-element list or under the key
    ["url"] of a dict comes back as it is; what is neither a string, a list
    nor a dict raises an exception whose message carries the value. *)
Theorem normalize_image_url_shapes (u : str) :
  normalize_image_url (PStr u) = Ok (PStr u)
  ∧ normalize_image_url (PList [PStr u]) = Ok (PStr u)
  ∧ (∀ d : gmap str PyVal,
       normalize_image_url (PDict (<[py "url" := PStr u]> d)) = Ok (PStr u))
  ∧ ∀ v : PyVal,
      match v with
      | PStr _ | PList _ | PDict _ => True
      | _ =>
          normalize_image_url v =
            Raise (PyException (py "Unrecognised image URL format: " ++ py_str v))
      end.
Proof.
  repeat split.
  - intros d. unfold normalize_image_url, getitem.
    by rewrite lookup_insert_eq.
  - by intros [].
Qed.

(** C9: on the empty list [normalize_instructions] reads [instructions[0]]
    before it knows the shape: the call raises [IndexError], not the
    exception kept for shapes it does not know. *)
Theorem normalize_instructions_empty_list :
  normalize_instructions (PList []) = Raise IndexError
  ∧ ∀ msg : str, normalize_instructions (PList []) ≠ Raise (PyException msg).
Proof. split; [reflexivity | discriminate]. Qed.

(** *** The image store *)

Lemma file_data_None (name : str) (st : store) :
  file_data name st = None ↔ name ∉ st.*1.
Proof.
  induction st as [|[n data] st IH]; simpl.
  - split; [intros _; apply not_elem_of_nil | done].
  - case_decide as Hn; subst.
    + split; [done | intros []; left].
    + rewrite IH, not_elem_of_cons. split; [by split | by intros [_ ?]].
Qed.

Lemma file_data_app (name : str) (st1 st2 : store) :
  file_data name (st1 ++ st2) =
    match file_data name st1 with
    | Some data => Some data
    | None => file_data name st2
    end.
Proof.
  induction st1 as [|[n data] st1 IH]; simpl; [done|]. by case_decide.
Qed.

Lemma scandir_Permutation (st : store) : scandir st ≡ₚ st.*1.
Proof. apply merge_sort_Permutation. Qed.

Lemma glob_star_Permutation (stem : str) (st : store) :
  glob_star stem st ≡ₚ filter (λ n, stem `prefix_of` n) st.*1.
Proof. unfold glob_star. by rewrite scandir_Permutation. Qed.

Lemma elem_of_glob_star (stem n : str) (st : store) :
  n ∈ glob_star stem st ↔ stem `prefix_of` n ∧ n ∈ st.*1.
Proof. by rewrite glob_star_Permutation, list_elem_of_filter. Qed.

Lemma elem_of_unlink (file n : str) (st : store) :
  n ∈ (unlink file st).*1 ↔ n ≠ file ∧ n ∈ st.*1.
Proof.
  unfold unlink. rewrite !list_elem_of_fmap. split.
  - intros ([n' d] & -> & [Hne Hin]%list_elem_of_filter). simpl in *.
    split; [done|]. by exists (n', d).
  - intros (Hne & [n' d] & -> & Hin). exists (n', d).
    split; [done|]. by apply list_elem_of_filter.
Qed.

(** A file whose name starts with the stem is among the files the pattern
    finds. *)
Lemma glob_star_nil_file_data (stem name : str) (st : store) :
  glob_star stem st = [] → stem `prefix_of` name → file_data name st = None.
Proof.
  intros Hglob Hpre. apply file_data_None. intros Hin.
  assert (Hn : name ∈ glob_star stem st) by by apply elem_of_glob_star.
  rewrite Hglob in Hn. by apply not_elem_of_nil in Hn.
Qed.

Lemma before_dot_prefix (slug rest : str) :
  before_dot slug `prefix_of` slug ++ rest.
Proof. apply prefix_app_r, take_while_prefix. Qed.

(** With at most one file under the stem, [delete_image] leaves none. *)
Lemma delete_image_clears (recipe_slug : str) (st : store) :
  (length (glob_star (before_dot recipe_slug) st) ≤ 1)%nat →
  glob_star (before_dot recipe_slug) (delete_image recipe_slug st) = [].
Proof.
  unfold delete_image. intros Hlen.
  destruct (glob_star (before_dot recipe_slug) st) as [|file [|file' rest]] eqn:Hglob;
    [done| |simpl in Hlen; lia].
  destruct (glob_star _ (unlink file st)) as [|n rest] eqn:Hrest; [done|].
  assert (Hn : n ∈ glob_star (before_dot recipe_slug) (unlink file st))
    by (rewrite Hrest; left).
  apply elem_of_glob_star in Hn as [Hpre [Hne Hin]%elem_of_unlink].
  assert (Hn : n ∈ glob_star (before_dot recipe_slug) st)
    by by apply elem_of_glob_star.
  rewrite Hglob in Hn. by apply list_elem_of_singleton in Hn.
Qed.

(** What one [write_image] gives when at most one file starts with the
    stem of the slug. *)
Lemma write_image_fresh (recipe_slug : str) (data : bytes) (extension : str)
    (st : store) :
  (length (glob_star (before_dot recipe_slug) st) ≤ 1)%nat →
  let image_path := recipe_slug ++ py "." ++ extension in
  let st' := (write_image recipe_slug data extension st).2 in
  (write_image recipe_slug data extension st).1 = image_path
  ∧ glob_star (before_dot recipe_slug) st' = [image_path]
  ∧ file_data image_path st' = Some data
  ∧ read_image recipe_slug st' = Some image_path.
Proof.
  intros Hlen image_path st'.
  pose proof (delete_image_clears _ _ Hlen) as Hclear.
  assert (Hnew : file_data image_path (delete_image recipe_slug st) = None)
    by (eapply glob_star_nil_file_data; [done | apply before_dot_prefix]).
  assert (Hst : st' = delete_image recipe_slug st ++ [(image_path, data)]).
  { unfold st', write_image. cbn [snd]. unfold append_file.
    fold image_path. by rewrite Hnew. }
  assert (Hglob : glob_star (before_dot recipe_slug) st' = [image_path]).
  { apply Permutation_singleton_r.
    rewrite glob_star_Permutation, Hst, fmap_app, filter_app.
    rewrite <- glob_star_Permutation, Hclear. simpl.
    rewrite filter_cons_True; [done | apply before_dot_prefix]. }
  repeat split; [done| |].
  - rewrite Hst, file_data_app, Hnew. simpl. by case_decide.
  - unfold read_image, is_file.
    assert (Hslug : file_data recipe_slug st' = None).
    { rewrite Hst, file_data_app.
      rewrite (glob_star_nil_file_data _ _ _ Hclear (take_while_prefix _ _)).
      simpl. case_decide as Heq; [|done].
      apply (f_equal length) in Heq. unfold image_path in Heq.
      rewrite !length_app in Heq. simpl in Heq. lia. }
    rewrite Hslug, Hglob. rewrite bool_decide_eq_false_2; [done|].
    by intros [? ?].
Qed.

(** The write deletes the file that the listing shows first under the
    stem, then appends to the file of the slug and the extension. *)
Lemma write_image_first (recipe_slug : str) (data : bytes) (extension : str)
    (first : str) (rest : list str) (st : store) :
  glob_star (before_dot recipe_slug) st = first :: rest →
  (write_image recipe_slug data extension st).2
    = append_file (recipe_slug ++ py "." ++ extension) data (unlink first st).
Proof. intros Hglob. unfold write_image, delete_image. by rewrite Hglob. Qed.

(** Two files under a stem are listed in one of the two orders. *)
Lemma glob_star_two (stem a b : str) (st : store) :
  filter (λ n, stem `prefix_of` n) st.*1 = [a; b] →
  glob_star stem st = [a; b] ∨ glob_star stem st = [b; a].
Proof.
  intros Hfilter. apply Permutation_length_2_inv.
  by rewrite glob_star_Permutation, Hfilter.
Qed.

Lemma glob_star_length (stem : str) (st : store) :
  length (glob_star stem st)
    = length (filter (λ n, stem `prefix_of` n) st.*1).
Proof. apply Permutation_length, glob_star_Permutation. Qed.

(** C3 (as amended): take a slug and extensions that are plain text, the
    names written not [.] or [..], and a store in which at most one file
    has a name that starts with the stem of the slug.  Then, whatever the
    order in which the directory lists its files, [write_image] followed
    by [read_image] gives a file that holds exactly the bytes written, and
    a further [write_image] for the slug, whatever its extension, leaves
    exactly one file under the stem: the new one, with the new bytes. *)
Theorem write_image_read_image (recipe_slug : str) (data : bytes)
    (extension : str) (st : store) :
  plain recipe_slug = true → plain extension = true →
  dot_name (recipe_slug ++ py "." ++ extension) = false →
  (length (glob_star (before_dot recipe_slug) st) ≤ 1)%nat →
  let st1 := (write_image recipe_slug data extension st).2 in
  (∃ file, read_image recipe_slug st1 = Some file
           ∧ file_data file st1 = Some data)
  ∧ ∀ (data2 : bytes) (extension2 : str),
      plain extension2 = true →
      dot_name (recipe_slug ++ py "." ++ extension2) = false →
      let st2 := (write_image recipe_slug data2 extension2 st1).2 in
      glob_star (before_dot recipe_slug) st2
        = [recipe_slug ++ py "." ++ extension2]
      ∧ file_data (recipe_slug ++ py "." ++ extension2) st2 = Some data2.
Proof.
  intros _ _ _ Hlen st1.
  destruct (write_image_fresh recipe_slug data extension st Hlen)
    as (_ & Hglob & Hdata & Hread).
  fold st1 in Hglob, Hdata, Hread. split; [eauto|].
  intros data2 extension2 _ _ st2.
  assert (Hlen1 : (length (glob_star (before_dot recipe_slug) st1) ≤ 1)%nat)
    by (by rewrite Hglob).
  destruct (write_image_fresh recipe_slug data2 extension2 st1 Hlen1)
    as (_ & Hglob2 & Hdata2 & _).
  done.
Qed.

Lemma file_data_write_file (name : str) (data : bytes) (st : store) :
  file_data name (write_file name data st) = Some data.
Proof.
  unfold write_file. destruct (file_data name st) as [old|] eqn:Hold.
  - induction st as [|[n d] st IH]; [done|].
    simpl in Hold |- *. case_decide as Hn; simpl.
    + by case_decide.
    + case_decide; [done | by apply IH].
  - rewrite file_data_app, Hold. simpl. by case_decide.
Qed.

Lemma path_suffix_dot (p : str) :
  path_suffix p ≠ [] → ∃ ext, ext ≠ [] ∧ path_suffix p = 46 :: ext.
Proof.
  unfold path_suffix. case_match eqn:Hc; [|done]. intros _.
  apply andb_prop in Hc as [[_ Hext]%andb_prop _].
  eexists. split; [|done]. by destruct (rev _).
Qed.

(** C10: when the path of the URL ends in an extension and the fetch
    answers 200, [scrape_image] stores the body under
    [slug + "." + suffix], and the suffix brings its own dot: the name has
    two dots in a row.  The name is neither the slug nor the slug with the
    suffix, so a [read_image] by either never meets the file in its branch
    for the exact name; the file is among those the pattern of the stem
    finds. *)
Theorem scrape_image_doubled_dot (u slug path : str) (r : response)
    (st : store) :
  plain slug = true →
  urlparse_path u = Ok path →
  path_suffix path ≠ [] →
  requests_get u = Ok r →
  status_code r = 200%Z →
  let name := slug ++ py "." ++ path_suffix path in
  let st' := write_file name (raw r) st in
  scrape_image (PStr u) (PStr slug) st = (Ok (Some name), st')
  ∧ file_data name st' = Some (raw r)
  ∧ (∃ ext, ext ≠ [] ∧ path_suffix path = 46 :: ext
            ∧ name = slug ++ py ".." ++ ext)
  ∧ name ≠ slug ∧ name ≠ slug ++ path_suffix path
  ∧ (∀ q, q ≠ name → read_image q st' = Some name → is_file q st' = false)
  ∧ name ∈ glob_star (before_dot slug) st'
  ∧ name ∈ glob_star (before_dot (slug ++ path_suffix path)) st'.
Proof.
  intros _ Hpath Hsuf Hget Hstatus name st'.
  destruct (path_suffix_dot _ Hsuf) as (ext & Hext & Hdot).
  assert (Hdata : file_data name st' = Some (raw r))
    by apply file_data_write_file.
  assert (Hin : name ∈ st'.*1).
  { destruct (decide (name ∈ st'.*1)) as [|Hn]; [done|].
    apply file_data_None in Hn. congruence. }
  repeat split.
  - unfold scrape_image, image_target. simpl. rewrite Hpath. simpl.
    rewrite Hget, Hstatus. done.
  - done.
  - exists ext. repeat split; [done..|]. unfold name. by rewrite Hdot.
  - intros Heq%(f_equal length). unfold name in Heq.
    rewrite !length_app in Heq. simpl in Heq. lia.
  - intros Heq%(f_equal length). unfold name in Heq.
    rewrite !length_app in Heq. simpl in Heq. lia.
  - intros q Hq. unfold read_image. destruct (is_file q st'); [|done].
    intros [= ->]. by destruct Hq.
  - apply elem_of_glob_star. split; [apply before_dot_prefix | done].
  - apply elem_of_glob_star. split; [|done].
    unfold name, before_dot. rewrite Hdot.
    clear. induction slug as [|c slug IH]; simpl.
    + apply prefix_nil.
    + destruct (c =? 46); simpl; [apply prefix_nil | by apply prefix_cons].
Qed.

(** *** The ingestion pipeline *)

(** C2: whatever [scrape_image] raises, [download_image_for_recipe]
    answers with the record: its ["image"] is [None] and every other field
    is as it was. *)
Theorem download_image_for_recipe_catches (d : gmap str PyVal)
    (st st' : store) (e : exn) :
  scrape_image (dict_get d (py "image")) (dict_get d (py "slug")) st
    = (Raise e, st') →
  ∃ d' : gmap str PyVal,
    download_image_for_recipe (PDict d) st = (Ok (PDict d'), st')
    ∧ d' !! py "image" = Some PNone
    ∧ ∀ k : str, k ≠ py "image" → d' !! k = d !! k.
Proof.
  intros Hraise. exists (<[py "image" := PNone]> d).
  unfold download_image_for_recipe. rewrite Hraise. repeat split.
  - apply lookup_insert_eq.
  - intros k Hk. by apply lookup_insert_ne.
Qed.

(** C4: neither the HTML nor the retry by URL gives a schema.org
    candidate, and the extractor turns to OpenGraph.  With a first
    OpenGraph block that has an [og:title] the record is the one of the
    claim: the two sentinels, the empty yield, the slug of the title.  The
    code reads the block and the title unguarded, though: on a page with
    no OpenGraph block it raises [IndexError] at [data["opengraph"][0]],
    and on a block with no [og:title] it raises [TypeError] at
    [slugify(None)]; in both cases no record comes back. *)
Theorem opengraph_fallback (html url : str) :
  schema_loads html = Ok [] →
  schema_scrape_url url = Ok [] →
  (extruct_opengraph html (get_base_url html url) = Ok [] →
     extract_recipe_from_html html url = Raise IndexError)
  ∧ (∀ (properties : list (str * str)) (blocks : list (list (str * str))),
       extruct_opengraph html (get_base_url html url)
         = Ok (properties :: blocks) →
       og_field properties (py "og:title") = PNone →
       extract_recipe_from_html html url = Raise TypeError)
  ∧ (∀ (properties : list (str * str)) (blocks : list (list (str * str)))
       (title : str),
       extruct_opengraph html (get_base_url html url)
         = Ok (properties :: blocks) →
       og_field properties (py "og:title") = PStr title →
       ∃ r : gmap str PyVal,
         extract_recipe_from_html html url = Ok (PDict r)
         ∧ r !! py "recipeIngredient"
             = Some (PList [PStr (py "Could not detect ingredients")])
         ∧ r !! py "recipeInstructions"
             = Some (PList [PDict {[ py "text" :=
                                       PStr (py "Could not detect instructions") ]}])
         ∧ r !! py "recipeYield" = Some (PStr [])
         ∧ r !! py "slug" = Some (PStr (slugify title))
         ∧ r !! py "name" = Some (PStr title)).
Proof.
  intros Hloads Hurl.
  assert (Hextract : extract_recipe_from_html html url
            = (new_recipe ← basic_recipe_from_opengraph html url;
               Ok (PDict new_recipe))).
  { unfold extract_recipe_from_html.
    rewrite Hloads. cbn [mbind result_bind is_nil]. rewrite Hurl. done. }
  rewrite Hextract. unfold basic_recipe_from_opengraph.
  split; [|split].
  - intros Hog. rewrite Hog. done.
  - intros properties blocks Hog Htitle. rewrite Hog.
    cbn [mbind result_bind]. rewrite Htitle. done.
  - intros properties blocks title Hog Htitle. rewrite Hog.
    cbn [mbind result_bind]. rewrite Htitle.
    cbn [mbind result_bind slugify_call].
    eexists. split; [reflexivity|].
    repeat split; reflexivity.
Qed.

(** ** Further properties of the services *)

(** *** The image store *)

Lemma file_data_Some_elem (name : str) (st : store) :
  is_Some (file_data name st) ↔ name ∈ st.*1.
Proof.
  destruct (file_data name st) as [data|] eqn:Hd.
  - split; [intros _ | by eauto].
    destruct (decide (name ∈ st.*1)) as [|Hn]; [done|].
    apply file_data_None in Hn. congruence.
  - split; [by intros [? ?] | intros Hin]. by apply file_data_None in Hd.
Qed.

Lemma file_data_unlink (n file : str) (st : store) :
  file_data n (unlink file st) = if decide (n = file) then None else file_data n st.
Proof.
  unfold unlink. induction st as [|[m data] st IH].
  - by case_decide.
  - rewrite (filter_cons _ (m, data)). simpl.
    destruct (decide (m ≠ file)) as [Hm|Hm]; simpl.
    + destruct (decide (m = n)) as [->|]; [by rewrite decide_False | done].
    + etrans; [exact IH|]. apply dec_stable in Hm. subst m.
      destruct (decide (n = file)) as [->|]; [done | by rewrite decide_False].
Qed.

Lemma file_data_write_file_ne (n name : str) (data : bytes) (st : store) :
  n ≠ name → file_data n (write_file name data st) = file_data n st.
Proof.
  intros Hn. unfold write_file. destruct (file_data name st) as [old|].
  - induction st as [|[m d] st IH]; [done|]. simpl.
    destruct (decide (m = name)) as [->|]; simpl.
    + rewrite !decide_False by done. exact IH.
    + destruct (decide (m = n)); [done | exact IH].
  - rewrite file_data_app. destruct (file_data n st); [done|].
    simpl. by rewrite decide_False.
Qed.

Lemma file_data_append_file (name : str) (data : bytes) (st : store) :
  file_data name (append_file name data st)
    = Some (default [] (file_data name st) ++ data).
Proof.
  unfold append_file. destruct (file_data name st) as [old|] eqn:Hold.
  - induction st as [|[m d] st IH]; [done|].
    simpl in Hold |- *. destruct (decide (m = name)) as [->|]; simpl.
    + rewrite decide_True by done. by injection Hold as ->.
    + rewrite decide_False by done. by apply IH.
  - rewrite file_data_app, Hold. simpl. by rewrite decide_True.
Qed.

Lemma file_data_append_file_ne (n name : str) (data : bytes) (st : store) :
  n ≠ name → file_data n (append_file name data st) = file_data n st.
Proof.
  intros Hn. unfold append_file. destruct (file_data name st) as [old|].
  - induction st as [|[m d] st IH]; [done|]. simpl.
    destruct (decide (m = name)) as [->|]; simpl.
    + rewrite !decide_False by done. exact IH.
    + destruct (decide (m = n)); [done | exact IH].
  - rewrite file_data_app. destruct (file_data n st); [done|].
    simpl. by rewrite decide_False.
Qed.

(** X1: for a slug that is plain text, [delete_image] removes the file
    that the pattern of the stem finds first, whatever the order of the
    listing, and nothing else: every other file keeps its content, and with
    no file under the stem the store stays as it is. *)
Theorem delete_image_first_only (recipe_slug : str) (st : store) :
  plain recipe_slug = true →
  match glob_star (before_dot recipe_slug) st with
  | [] => delete_image recipe_slug st = st
  | file :: _ =>
      file_data file (delete_image recipe_slug st) = None
      ∧ ∀ n : str, n ≠ file →
          file_data n (delete_image recipe_slug st) = file_data n st
  end.
Proof.
  intros _. unfold delete_image.
  destruct (glob_star (before_dot recipe_slug) st) as [|file rest]; [done|].
  split.
  - rewrite file_data_unlink. by rewrite decide_True.
  - intros n Hn. rewrite file_data_unlink. by rewrite decide_False.
Qed.

(** X2: for a slug that is plain text, [read_image] finds nothing exactly
    when no stored name starts with the stem of the slug; what it finds is
    a stored file whose name starts with the stem. *)
Theorem read_image_found (recipe_slug : str) (st : store) :
  plain recipe_slug = true →
  (read_image recipe_slug st = None
     ↔ glob_star (before_dot recipe_slug) st = [])
  ∧ ∀ file : str, read_image recipe_slug st = Some file →
      is_Some (file_data file st) ∧ before_dot recipe_slug `prefix_of` file.
Proof.
  intros _. unfold read_image, is_file. split.
  - case_bool_decide as Hfile.
    + split; [done|]. intros Hglob.
      rewrite (glob_star_nil_file_data _ _ _ Hglob (take_while_prefix _ _))
        in Hfile.
      by destruct Hfile.
    + by destruct (glob_star _ st).
  - intros file. case_bool_decide as Hfile.
    + intros [= <-]. split; [done | apply take_while_prefix].
    + intros Hhead. apply head_Some_elem_of in Hhead.
      apply elem_of_glob_star in Hhead as [Hpre Hin].
      split; [by apply file_data_Some_elem | done].
Qed.

(** X3: for a slug and an extension that are plain text: when the listing
    shows another file under the stem before the image of the slug,
    [write_image] deletes that other file and then opens the old image to
    append: the image holds the old bytes followed by the new ones. *)
Theorem write_image_appends (recipe_slug : str) (data old : bytes)
    (extension first : str) (rest : list str) (st : store) :
  plain recipe_slug = true → plain extension = true →
  glob_star (before_dot recipe_slug) st = first :: rest →
  first ≠ recipe_slug ++ py "." ++ extension →
  file_data (recipe_slug ++ py "." ++ extension) st = Some old →
  file_data (recipe_slug ++ py "." ++ extension)
    (write_image recipe_slug data extension st).2 = Some (old ++ data)
  ∧ file_data first (write_image recipe_slug data extension st).2 = None.
Proof.
  intros _ _ Hglob Hfirst Hold. unfold write_image, delete_image. cbn [snd].
  rewrite Hglob. split.
  - rewrite file_data_append_file, file_data_unlink.
    rewrite decide_False by done. by rewrite Hold.
  - rewrite file_data_append_file_ne by done.
    rewrite file_data_unlink. by rewrite decide_True.
Qed.

(** *** Fetching an image *)

(** X4: A list (its first element), a dict (its ["url"]) and a list that holds
    such a dict are resolved to the URL they carry: the call does what it
    does on the bare URL. *)
Theorem scrape_image_shapes (u : str) (slug : PyVal) (d : gmap str PyVal)
    (rest : list PyVal) (st : store) :
  scrape_image (PList (PStr u :: rest)) slug st = scrape_image (PStr u) slug st
  ∧ scrape_image (PDict (<[py "url" := PStr u]> d)) slug st
    = scrape_image (PStr u) slug st
  ∧ scrape_image (PList (PDict (<[py "url" := PStr u]> d) :: rest)) slug st
    = scrape_image (PStr u) slug st.
Proof.
  unfold scrape_image, image_target, resolve_image_url.
  cbn [list_first mbind result_bind]. by rewrite lookup_insert_eq.
Qed.

(** X5: A source that carries no URL, or a slug that is no string, ends the
    call with an exception before anything is fetched or stored. *)
Theorem scrape_image_unusable (slug : PyVal) (st : store) :
  scrape_image (PList []) slug st = (Raise IndexError, st)
  ∧ scrape_image PNone slug st = (Raise TypeError, st)
  ∧ scrape_image (PDict ∅) slug st = (Raise TypeError, st)
  ∧ (∀ z : Z, z ≠ 0%Z →
       scrape_image (PInt z) slug st = (Raise AttributeError, st))
  ∧ ∀ u path : str,
      urlparse_path u = Ok path →
      match slug with
      | PStr _ => True
      | _ => scrape_image (PStr u) slug st = (Raise TypeError, st)
      end.
Proof.
  repeat split.
  - intros z Hz. unfold scrape_image, image_target, resolve_image_url.
    cbn [mbind result_bind truthy]. by destruct (Z.eqb_spec z 0).
  - intros u path Hpath. unfold scrape_image, image_target, resolve_image_url.
    cbn [mbind result_bind]. rewrite Hpath. by destruct slug.
Qed.

(** X6: A fetch that fails, or that answers with another status than 200, is
    answered with [None]; the store is left as it was. *)
Theorem scrape_image_failed_fetch (u slug path : str) (st : store) :
  urlparse_path u = Ok path →
  match requests_get u with
  | Raise _ => scrape_image (PStr u) (PStr slug) st = (Ok None, st)
  | Ok r =>
      status_code r ≠ 200%Z →
      scrape_image (PStr u) (PStr slug) st = (Ok None, st)
  | Diverge => True
  end.
Proof.
  intros Hpath. unfold scrape_image, image_target, resolve_image_url.
  cbn [mbind result_bind]. rewrite Hpath. cbn [mbind result_bind add_extension].
  destruct (requests_get u) as [r| |]; [|done..].
  intros Hstatus. by destruct (Z.eqb_spec (status_code r) 200).
Qed.


Lemma scrape_image_still_stored (image_url slug : PyVal) (st : store)
    (n : str) :
  is_Some (file_data n st) →
  is_Some (file_data n (scrape_image image_url slug st).2).
Proof.
  intros Hn. unfold scrape_image.
  destruct (image_target image_url slug) as [[u filename]| |]; [|done..].
  destruct (requests_get u) as [r| |]; [|done..].
  destruct (status_code r =? 200)%Z; [|done]. cbn [snd].
  destruct (decide (n = filename)) as [->|Hne].
  - by rewrite file_data_write_file.
  - by rewrite file_data_write_file_ne.
Qed.

(** *** The ingestion pipeline *)

(** X8: On a dict [download_image_for_recipe] does not fail: it answers with
    the record, in which only ["image"] may have changed, to the name of
    the file stored or to [None]; the store is the one [scrape_image]
    leaves. *)
Theorem download_image_for_recipe_record (d : gmap str PyVal) (st : store) :
  let scraped :=
    scrape_image (dict_get d (py "image")) (dict_get d (py "slug")) st in
  scraped.1 ≠ Diverge →
  ∃ d' : gmap str PyVal,
    download_image_for_recipe (PDict d) st = (Ok (PDict d'), scraped.2)
    ∧ (∀ k : str, k ≠ py "image" → d' !! k = d !! k)
    ∧ d' !! py "image" =
        Some match scraped.1 with
             | Ok (Some img_path) => PStr (path_name img_path)
             | _ => PNone
             end.
Proof.
  intros scraped Hdiv. unfold download_image_for_recipe. fold scraped.
  destruct scraped as [[[img_path|]|e|] st']; cbn [fst snd] in *;
    try done; eexists; (split; [reflexivity|]); split;
    try (intros k Hk; by apply lookup_insert_ne);
    apply lookup_insert_eq.
Qed.

(** What is no dict cannot take the item: the handler of the exception
    raises itself, with [TypeError]. *)
Theorem download_image_for_recipe_not_dict (recipe : PyVal) (st : store) :
  match recipe with
  | PDict _ => True
  | _ => download_image_for_recipe recipe st = (Raise TypeError, st)
  end.
Proof. by destruct recipe. Qed.

(** X9: When the first schema.org candidate is empty, the extractor answers
    with the string ["fail"], and the pipeline, which takes it for a
    record, ends with [TypeError]; nothing is fetched or stored for it. *)
Theorem process_recipe_url_empty_candidate (url : str) (r : response)
    (candidate : PyVal) (others : list PyVal) (st : store) :
  requests_get url = Ok r →
  schema_loads (text r) = Ok (candidate :: others) →
  truthy candidate = false →
  extract_recipe_from_html (text r) url = Ok (PStr (py "fail"))
  ∧ process_recipe_url url st = (Raise TypeError, st).
Proof.
  intros Hget Hloads Hfalsy.
  assert (Hfail : extract_recipe_from_html (text r) url = Ok (PStr (py "fail"))).
  { unfold extract_recipe_from_html. rewrite Hloads.
    cbn [mbind result_bind is_nil]. by rewrite Hfalsy. }
  split; [done|]. unfold process_recipe_url. by rewrite Hget, Hfail.
Qed.

(** X10: The pipeline removes no stored file: what was in the store before a
    run is in it after the run. *)
Theorem process_recipe_url_keeps_files (url : str) (st : store) (n : str) :
  is_Some (file_data n st) →
  is_Some (file_data n (process_recipe_url url st).2).
Proof.
  intros Hn. unfold process_recipe_url.
  destruct (requests_get url) as [r| |]; [|done..].
  destruct (extract_recipe_from_html (text r) url) as [recipe| |]; [|done..].
  unfold download_image_for_recipe. destruct recipe; try done.
  pose proof (scrape_image_still_stored
                (dict_get d (py "image")) (dict_get d (py "slug")) st n Hn)
    as Hkept.
  by destruct (scrape_image _ _ st) as [[[img_path|]|e|] st'].
Qed.

(** *** More on the field normalisers *)

(** X11: A yield given as a list is its last entry, an empty list raises
    [IndexError], and every other value is passed on. *)
Theorem normalize_yield_last (l : list PyVal) (x : PyVal) :
  normalize_yield (PList (l ++ [x])) = Ok x
  ∧ normalize_yield (PList []) = Raise IndexError
  ∧ ∀ v : PyVal,
      match v with
      | PList _ => True
      | _ => normalize_yield v = Ok v
      end.
Proof.
  repeat split.
  - unfold normalize_yield, list_last. by rewrite last_snoc.
  - by intros [].
Qed.

(** X12: In a list of dicts whose first one is a [HowToSection], only the steps
    of that first section are read: the sections that follow do not count. *)
Theorem normalize_instructions_first_section (section : gmap str PyVal)
    (others others' : list PyVal) :
  section !! py "@type" = Some (PStr (py "HowToSection")) →
  normalize_instructions (PList (PDict section :: others))
  = normalize_instructions (PList (PDict section :: others')).
Proof.
  intros Hty. unfold normalize_instructions.
  cbn [list_first mbind result_bind getitem]. rewrite Hty.
  cbn [mbind result_bind eq_str]. by rewrite !bool_decide_eq_true_2 by done.
Qed.

(** X13: The pattern of a step takes one digit: of a step number with two
    digits the first digit stays behind as a piece of its own. *)
Theorem step_split_two_digits (c d : cp) (t : str) :
  is_digit c = true → is_digit d = true →
  step_split 0 [] (c :: d :: 46 :: 32 :: t) = [c] :: step_split 0 [] t.
Proof.
  unfold is_digit, between. intros Hc Hd.
  apply andb_prop in Hc as [Hc1 Hc2]. apply andb_prop in Hd as [Hd1 Hd2].
  apply N.leb_le in Hc1, Hc2, Hd1, Hd2.
  assert (Hfirst : step_match (c :: d :: 46 :: 32 :: t) = None).
  { unfold step_match. cbn [take_while].
    replace (d =? 46) with false by (symmetry; apply N.eqb_neq; lia).
    replace (is_newline c) with false; [done|].
    unfold is_newline. symmetry. apply orb_false_intro; apply N.eqb_neq; lia. }
  assert (Hsecond : step_match (d :: 46 :: 32 :: t) = Some 3%nat).
  { unfold step_match, re_digit, is_digit, between.
    replace (48 <=? d) with true by (symmetry; apply N.leb_le; lia).
    replace (d <=? 57) with true by (symmetry; apply N.leb_le; lia).
    done. }
  cbn [step_split]. rewrite Hfirst. cbn [step_split]. rewrite Hsecond.
  done.
Qed.

Lemma step_split_pieces (skip : nat) (cur s : str) :
  Forall (λ c, is_newline c = false) cur →
  Forall (Forall (λ c, is_newline c = false)) (step_split skip cur s).
Proof.
  revert skip cur. induction s as [|c t IH]; intros skip cur Hcur.
  - cbn [step_split]. constructor; [|constructor]. by apply Forall_rev.
  - destruct skip as [|k]; [|by apply IH].
    change (step_split 0 cur (c :: t))
      with (match step_match (c :: t) with
            | Some n => rev cur :: step_split (pred n) [] t
            | None => step_split 0 (c :: cur) t
            end).
    destruct (step_match (c :: t)) as [n|] eqn:Hm.
    + constructor; [by apply Forall_rev | by apply IH].
    + apply IH. constructor; [|done].
      unfold step_match in Hm. cbn [take_while] in Hm.
      destruct (is_newline c); [|done]. exfalso.
      cbn [is_nil length] in Hm. by repeat case_match.
Qed.

(** X14: No piece that the splitter gives holds a line break: a run of line
    breaks is taken as a whole. *)
Theorem step_split_no_newline (s : str) :
  Forall (λ piece, mem 10 piece = false ∧ mem 13 piece = false)
    (step_split 0 [] s).
Proof.
  eapply Forall_impl; [by apply step_split_pieces|].
  intros piece Hpiece. simpl in Hpiece.
  induction Hpiece as [|c piece Hc _ [IH1 IH2]]; [done|].
  unfold is_newline in Hc. apply orb_false_elim in Hc as [H10 H13].
  unfold mem. cbn [existsb]. fold (mem 10 piece). fold (mem 13 piece).
  by rewrite (N.eqb_sym 10), (N.eqb_sym 13), H10, H13.
Qed.

(** *** More on the extractor *)

(** X15: The tags are the values of the field, each one once; the single field
    is [None] exactly when the page has no such property, and else one of
    its values. *)
Theorem og_fields_values (properties : list (str * str)) (field_name : str) :
  NoDup (og_fields properties field_name)
  ∧ (∀ val : str,
       PStr val ∈ og_fields properties field_name
       ↔ (field_name, val) ∈ properties)
  ∧ (og_field properties field_name = PNone
       ↔ ∀ val : str, (field_name, val) ∉ properties)
  ∧ ∀ val : str,
      og_field properties field_name = PStr val →
      (field_name, val) ∈ properties.
Proof.
  assert (Hval : ∀ val, val ∈ og_values properties field_name
                        ↔ (field_name, val) ∈ properties).
  { intros val. unfold og_values. rewrite list_elem_of_fmap. split.
    - intros ([n v] & -> & [Hn Hin]%list_elem_of_filter). simpl in *. by subst.
    - intros Hin. exists (field_name, val). split; [done|].
      by apply list_elem_of_filter. }
  split; [|split; [|split]].
  - unfold og_fields.
    apply NoDup_fmap_2; [by intros ?? [=] | apply NoDup_remove_dups].
  - intros val. unfold og_fields. rewrite list_elem_of_fmap. split.
    + intros (v & [= ->] & Hin).
      exact (proj1 (Hval v) (proj1 (elem_of_remove_dups _ _) Hin)).
    + intros Hin. exists val. split; [done|].
      exact (proj2 (elem_of_remove_dups _ _) (proj2 (Hval val) Hin)).
  - unfold og_field. split.
    + intros Hnone val Hin. apply (proj2 (Hval val)) in Hin.
      destruct (og_values properties field_name); [|done].
      by apply not_elem_of_nil in Hin.
    + intros Hnone.
      destruct (og_values properties field_name) as [|val rest] eqn:Hvals;
        [done|].
      destruct (Hnone val). apply (proj1 (Hval val)). left.
  - intros val. unfold og_field.
    destruct (og_values properties field_name) as [|v rest] eqn:Hvals; [done|].
    intros [= ->]. apply (proj1 (Hval val)). left.
Qed.

Lemma process_recipe_data_union (d : gmap str PyVal) (url : str) :
  match d !! py "name" with
  | None => process_recipe_data (PDict d) url = Raise (KeyError (py "name"))
  | Some (PStr name) =>
      ∃ r : gmap str PyVal,
        process_recipe_data (PDict d) url = Ok r
        ∧ r !! py "slug" = Some (PStr (slugify name))
        ∧ r !! py "orgURL" = Some (PStr url)
        ∧ r !! py "categories" = Some (PList [])
        ∧ r !! py "tags" = Some (PList [])
        ∧ r !! py "dateAdded" = Some PNone
        ∧ r !! py "notes" = Some (PList [])
        ∧ r !! py "extras" = Some (PList [])
        ∧ ∀ k : str,
            k ∉ [py "slug"; py "orgURL"; py "categories"; py "tags";
                 py "dateAdded"; py "notes"; py "extras"] →
            r !! k = d !! k
  | Some _ => process_recipe_data (PDict d) url = Raise TypeError
  end.
Proof.
  unfold process_recipe_data, getitem.
  destruct (d !! py "name") as [[| | |name| |]|] eqn:Hname; try done.
  cbn [mbind result_bind slugify_call]. eexists. split; [reflexivity|].
  repeat split; try (apply lookup_union_Some_l; reflexivity).
  intros k Hk. apply lookup_union_r. apply not_elem_of_list_to_map_1. exact Hk.
Qed.

(** X16: The metadata of the pipeline are stamped over the candidate: slug of
    the name, source URL, empty lists, no date; every other field of the
    candidate is kept.  A candidate without a name raises [KeyError]. *)
Theorem process_recipe_data_stamps (d : gmap str PyVal) (url : str) :
  match d !! py "name" with
  | None => process_recipe_data (PDict d) url = Raise (KeyError (py "name"))
  | Some (PStr name) =>
      ∃ r : gmap str PyVal,
        process_recipe_data (PDict d) url = Ok r
        ∧ r !! py "slug" = Some (PStr (slugify name))
        ∧ r !! py "orgURL" = Some (PStr url)
        ∧ r !! py "categories" = Some (PList [])
        ∧ r !! py "tags" = Some (PList [])
        ∧ r !! py "dateAdded" = Some PNone
        ∧ r !! py "notes" = Some (PList [])
        ∧ r !! py "extras" = Some (PList [])
        ∧ ∀ k : str,
            k ∉ [py "slug"; py "orgURL"; py "categories"; py "tags";
                 py "dateAdded"; py "notes"; py "extras"] →
            r !! k = d !! k
  | Some _ => process_recipe_data (PDict d) url = Raise TypeError
  end.
Proof. apply process_recipe_data_union. Qed.

(** *** The record after [normalize_data] *)

Lemma Ok_inj {A} (a b : A) : Ok a = Ok b → a = b.
Proof. by intros [=]. Qed.

Local Ltac key_ne :=
  let H := fresh in intros H; vm_compute in H; discriminate H.

Lemma normalize_data_inv (d r : gmap str PyVal) :
  normalize_data d = Ok r →
  is_Some (d !! py "recipeInstructions")
  ∧ is_Some (d !! py "recipeIngredient")
  ∧ (∃ image, normalize_image_url (dict_get d (py "image")) = Ok image
              ∧ r !! py "image" = Some image)
  ∧ r !! py "totalTime" = Some (normalize_time (dict_get d (py "totalTime")))
  ∧ r !! py "prepTime" = Some (normalize_time (dict_get d (py "prepTime")))
  ∧ r !! py "performTime"
      = Some (normalize_time (dict_get d (py "performTime")))
  ∧ ∀ k : str,
      k ∉ [py "description"; py "totalTime"; py "prepTime"; py "performTime";
           py "recipeYield"; py "recipeInstructions"; py "recipeIngredient";
           py "image"] →
      r !! k = d !! k.
Proof.
  unfold normalize_data.
  destruct (unescape_html _) as [description| |];
    cbn [mbind result_bind]; [|done..].
  destruct (normalize_yield _) as [yld| |]; cbn [mbind result_bind]; [|done..].
  destruct (getitem _ (py "recipeInstructions")) as [raw_ins| |] eqn:Hins;
    cbn [mbind result_bind]; [|done..].
  destruct (normalize_instructions _) as [ins| |];
    cbn [mbind result_bind]; [|done..].
  destruct (getitem _ (py "recipeIngredient")) as [raw_ing| |] eqn:Hing;
    cbn [mbind result_bind]; [|done..].
  destruct (normalize_ingredients _) as [ing| |];
    cbn [mbind result_bind]; [|done..].
  destruct (normalize_image_url _) as [image| |] eqn:Himage;
    cbn [mbind result_bind]; [|done..].
  intros <-%Ok_inj.
  unfold getitem in Hins, Hing. unfold dict_get in *.
  repeat (rewrite lookup_insert_ne in Hins by key_ne).
  repeat (rewrite lookup_insert_ne in Hing by key_ne).
  repeat (rewrite lookup_insert_ne in Himage by key_ne).
  split; [destruct (d !! py "recipeInstructions"); [by eexists | done]|].
  split; [destruct (d !! py "recipeIngredient"); [by eexists | done]|].
  split; [exists image; split; [done | by rewrite lookup_insert_eq]|].
  repeat split.
  - rewrite !(lookup_insert_ne _ _ (py "totalTime")) by key_ne.
    by rewrite lookup_insert_eq, !lookup_insert_ne by key_ne.
  - rewrite !(lookup_insert_ne _ _ (py "prepTime")) by key_ne.
    by rewrite lookup_insert_eq, !lookup_insert_ne by key_ne.
  - rewrite !(lookup_insert_ne _ _ (py "performTime")) by key_ne.
    by rewrite lookup_insert_eq, !lookup_insert_ne by key_ne.
  - intros k Hk. repeat (apply not_elem_of_cons in Hk as [? Hk]).
    by rewrite !lookup_insert_ne by done.
Qed.

(** X17: When [normalize_data] returns, the raw record had instructions,
    ingredients and an image of a known shape; the three times are what
    [normalize_time] makes of them (so a time given as a string is [None]
    in the record), and every field beside the eight normalised ones is as
    it was. *)
Theorem normalize_data_fields (d r : gmap str PyVal) :
  normalize_data d = Ok r →
  is_Some (d !! py "recipeInstructions")
  ∧ is_Some (d !! py "recipeIngredient")
  ∧ (∃ image, normalize_image_url (dict_get d (py "image")) = Ok image
              ∧ r !! py "image" = Some image)
  ∧ r !! py "totalTime" = Some (normalize_time (dict_get d (py "totalTime")))
  ∧ r !! py "prepTime" = Some (normalize_time (dict_get d (py "prepTime")))
  ∧ r !! py "performTime"
      = Some (normalize_time (dict_get d (py "performTime")))
  ∧ ∀ k : str,
      k ∉ [py "description"; py "totalTime"; py "prepTime"; py "performTime";
           py "recipeYield"; py "recipeInstructions"; py "recipeIngredient";
           py "image"] →
      r !! k = d !! k.
Proof. apply normalize_data_inv. Qed.

(** *** Lists of lines *)

Lemma unescape_loop_length (fuel : nat) (l r : str) (n : nat) :
  unescape_loop fuel l = Some (r, n) → (length r ≤ length l)%nat.
Proof.
  revert l n. induction fuel as [|f IH]; intros l n; [done|].
  simpl. pose proof (unescape_length l) as [Hle _]. case_decide.
  - by intros [= <- _].
  - destruct (unescape_loop f _) as [[r' n']|] eqn:Hrun; [|done].
    intros [= <- _]. apply IH in Hrun. lia.
Qed.

Lemma unescape_html_decoded (line : str) :
  ∃ out, unescape_html (PStr (strip line)) = Ok out ∧ decoded line out.
Proof.
  unfold decoded.
  destruct (unescape_loop_terminates (S (length (strip line))) (strip line)
              ltac:(lia)) as (r & n & Hrun & _).
  destruct (strip line) as [|c t] eqn:Hstrip.
  - by exists PNone.
  - exists (PStr r). split; [by eapply unescape_html_str|].
    exists r. split; [done|]. split.
    + by eapply unescape_loop_fixed_point.
    + by eapply unescape_loop_length.
Qed.

Lemma for_each_lines {B} (wrap : PyVal → B) (lines : list str) :
  ∃ outs,
    for_each (λ line, s ← strip_method line;
                      t ← unescape_html (PStr s); Ok (wrap t))
      (PStr <$> lines) = Ok (wrap <$> outs)
    ∧ Forall2 decoded lines outs.
Proof.
  induction lines as [|line lines (outs & Hrun & Houts)].
  - exists []. by split.
  - destruct (unescape_html_decoded line) as (out & Hout & Hdec).
    exists (out :: outs). split; [|by constructor].
    rewrite fmap_cons. cbn [for_each strip_method mbind result_bind].
    rewrite Hout. cbn [mbind result_bind]. rewrite Hrun. done.
Qed.

Lemma for_each_raise {A B} (f : A → result B) (before after : list A)
    (x : A) (e : exn) (outs : list B) :
  for_each f before = Ok outs → f x = Raise e →
  for_each f (before ++ x :: after) = Raise e.
Proof.
  revert outs. induction before as [|a before IH]; intros outs.
  - intros _ Hx. cbn [app for_each]. by rewrite Hx.
  - cbn [app for_each]. destruct (f a) as [b| |]; cbn [mbind result_bind]; [|done..].
    destruct (for_each f before) as [bs| |] eqn:Hbs;
      cbn [mbind result_bind]; [|done..].
    intros _ Hx. by rewrite (IH bs eq_refl Hx).
Qed.

(** X18: The ingredient lines come back one for one and in order: each is cut
    and decoded, and a blank line comes back as [None], not as an empty
    string. *)
Theorem normalize_ingredients_lines (lines : list str) :
  ∃ outs : list PyVal,
    normalize_ingredients (PList (PStr <$> lines)) = Ok (PList outs)
    ∧ Forall2 decoded lines outs.
Proof.
  unfold normalize_ingredients. cbn [iterate mbind result_bind].
  induction lines as [|line lines (outs & Hrun & Houts)].
  - exists []. by split.
  - destruct (unescape_html_decoded line) as (out & Hout & Hdec).
    exists (out :: outs). split; [|by constructor].
    rewrite fmap_cons. cbn [for_each strip_method mbind result_bind].
    rewrite Hout. cbn [mbind result_bind].
    destruct (for_each _ (PStr <$> lines)); [|done..].
    cbn [mbind result_bind] in *. by injection Hrun as ->.
Qed.

(** X19: A list of instruction lines comes back as one [{"text": ...}] for each
    line, in order; the first element alone decides that the list is read
    as lines, and a later element that is no string raises
    [AttributeError]. *)
Theorem normalize_instructions_lines (first : str) (lines : list str) :
  (∃ outs : list PyVal,
     normalize_instructions (PList (PStr <$> first :: lines))
       = Ok (PList (text_record <$> outs))
     ∧ Forall2 decoded (first :: lines) outs)
  ∧ ∀ (v : PyVal) (after : list PyVal),
      match v with
      | PStr _ => True
      | _ =>
          normalize_instructions
            (PList ((PStr <$> first :: lines) ++ v :: after))
          = Raise AttributeError
      end.
Proof.
  destruct (for_each_lines text_record (first :: lines)) as (outs & Hrun & Houts).
  split.
  - exists outs. split; [|done]. unfold normalize_instructions.
    rewrite fmap_cons in Hrun |- *. cbn [list_first mbind result_bind].
    by rewrite Hrun.
  - intros v after. destruct v; try done;
      unfold normalize_instructions; rewrite fmap_cons;
      cbn [app list_first mbind result_bind];
      rewrite app_comm_cons, <- fmap_cons;
      by erewrite for_each_raise.
Qed.

(** *** The splitter of instruction text *)

Lemma step_split_cons (cur : str) (c : cp) (t : str) :
  step_split 0 cur (c :: t)
  = match step_match (c :: t) with
    | Some n => rev cur :: step_split (pred n) [] t
    | None => step_split 0 (c :: cur) t
    end.
Proof. reflexivity. Qed.

Lemma step_split_skip (k : nat) (cur t : str) :
  step_split k cur t = step_split 0 cur (drop k t).
Proof.
  revert t. induction k as [|k IH]; intros t; [done|].
  destruct t as [|c t]; [done|]. exact (IH t).
Qed.

(** What was read before the scan goes to the front of the first piece. *)
Lemma step_split_cur (cur s : str) :
  step_split 0 cur s
  = match step_split 0 [] s with
    | p :: ps => (rev cur ++ p) :: ps
    | [] => []
    end.
Proof.
  revert cur. induction s as [|c t IH]; intros cur.
  - cbn [step_split]. by rewrite app_nil_r.
  - rewrite !step_split_cons. destruct (step_match (c :: t)) as [n|].
    + by rewrite app_nil_r.
    + rewrite (IH (c :: cur)), (IH [c]).
      destruct (step_split 0 [] t) as [|p ps]; [done|].
      cbn [rev app]. by rewrite <- !app_assoc.
Qed.

Lemma take_while_Forall {A} (f : A → bool) (l : list A) :
  Forall (λ c, f c = true) (take_while f l).
Proof.
  induction l as [|c l IH]; cbn [take_while]; [constructor|].
  destruct (f c) eqn:Hc; by constructor.
Qed.

Lemma take_while_take {A} (f : A → bool) (l : list A) :
  take (length (take_while f l)) l = take_while f l.
Proof.
  induction l as [|c l IH]; cbn [take_while]; [done|].
  destruct (f c); [|done]. cbn [length take]. by rewrite IH.
Qed.

(** What the pattern matches at the head of a text is a step text. *)
Lemma step_match_Some (s : str) (n : nat) :
  step_match s = Some n → step_text (take n s) ∧ (0 < n)%nat.
Proof.
  unfold step_match.
  assert (Hsecond :
    (if is_nil (take_while is_newline s) then None
     else Some (length (take_while is_newline s))) = Some n →
    step_text (take n s) ∧ (0 < n)%nat).
  { destruct (is_nil (take_while is_newline s)) eqn:Hnil; [done|].
    intros [= <-]. rewrite take_while_take.
    destruct (take_while_Forall is_newline s); [done|].
    split; [|simpl; lia]. right. split; [done | by constructor]. }
  destruct s as [|d [|dot t]]; [exact Hsecond..|].
  destruct (dot =? 46) eqn:Hdot; [|exact Hsecond].
  destruct (re_digit d) eqn:Hd; [|exact Hsecond].
  cbn [andb]. apply N.eqb_eq in Hdot as ->.
  destruct t as [|c t].
  - intros [= <-]. split; [|lia]. left. exists d. split; [done | by left].
  - destruct (c =? 32) eqn:Hc; intros [= <-]; (split; [|lia]); left; exists d.
    + apply N.eqb_eq in Hc as ->. split; [done | by right].
    + split; [done | by left].
Qed.

(** Where the pattern does not match, the head is no line break and no
    digit before a dot. *)
Lemma step_match_None (c : cp) (t : str) :
  step_match (c :: t) = None →
  is_newline c = false
  ∧ match t with
    | dot :: _ => negb ((dot =? 46) && re_digit c) = true
    | [] => True
    end.
Proof.
  unfold step_match. cbn [take_while].
  destruct (is_newline c).
  - cbn [is_nil length]. by repeat case_match.
  - cbn [is_nil]. destruct t as [|dot t]; [done|].
    by destruct ((dot =? 46) && re_digit c).
Qed.

Lemma weave_cons (c : cp) (p : str) (ps seps : list str) :
  weave ((c :: p) :: ps) seps = c :: weave (p :: ps) seps.
Proof. by destruct seps. Qed.

(** The split of a text: the pieces, with step texts between them, make
    up the text, and no piece holds a line break or a digit before a
    dot. *)
Lemma step_split_weave (s : str) :
  ∃ seps : list str,
    s = weave (step_split 0 [] s) seps
    ∧ length (step_split 0 [] s) = S (length seps)
    ∧ Forall step_text seps
    ∧ Forall (λ p, no_step p = true ∧ Forall (λ c, is_newline c = false) p)
        (step_split 0 [] s).
Proof.
  remember (length s) as n eqn:Hn.
  assert (Hle : (length s ≤ n)%nat) by lia. clear Hn.
  revert s Hle. induction n as [|n IH]; intros s Hle.
  { destruct s; [|simpl in Hle; lia]. exists [].
    repeat split; repeat constructor. }
  destruct s as [|c t].
  { exists []. repeat split; repeat constructor. }
  simpl in Hle. rewrite step_split_cons.
  destruct (step_match (c :: t)) as [k|] eqn:Hm.
  - destruct (step_match_Some _ _ Hm) as [Htext Hk].
    destruct k as [|k]; [lia|]. cbn [pred]. rewrite step_split_skip.
    destruct (IH (drop k t)) as (seps & Hs & Hlen & Hseps & Hpieces).
    { rewrite length_drop. lia. }
    exists (take (S k) (c :: t) :: seps). repeat split.
    + cbn [rev weave app]. rewrite <- Hs. cbn [take app].
      by rewrite take_drop.
    + cbn [length]. by rewrite Hlen.
    + by constructor.
    + constructor; [|done]. by split; [|constructor].
  - destruct (step_match_None _ _ Hm) as [Hc Hdot].
    destruct (IH t) as (seps & Hs & Hlen & Hseps & Hpieces); [lia|].
    rewrite step_split_cur.
    destruct (step_split 0 [] t) as [|p ps] eqn:Hsplit; [done|].
    exists seps. cbn [rev app]. repeat split.
    + rewrite weave_cons. by rewrite <- Hs.
    + done.
    + done.
    + apply Forall_cons in Hpieces as [[Hp1 Hp2] Hps].
      constructor; [|done]. split; [|by constructor].
      cbn [no_step]. rewrite Hp1, andb_true_r.
      destruct p as [|dot p]; [done|].
      destruct t as [|dot' t]; [by destruct seps|].
      assert (dot' = dot) as -> by (destruct seps; by injection Hs).
      exact Hdot.
Qed.

Lemma for_each_pieces (lines : list str) :
  ∃ outs,
    for_each (λ line, t ← unescape_html (PStr (strip line));
                      Ok (PDict {[ py "text" := t ]}))
      lines = Ok ((λ t, PDict {[ py "text" := t ]}) <$> outs)
    ∧ Forall2 decoded lines outs.
Proof.
  induction lines as [|line lines (outs & Hrun & Houts)].
  - exists []. by split.
  - destruct (unescape_html_decoded line) as (out & Hout & Hdec).
    exists (out :: outs). split; [|by constructor].
    cbn [for_each mbind result_bind].
    rewrite Hout. cbn [mbind result_bind]. rewrite Hrun. done.
Qed.

(** C8: a string of instructions is split where the pattern of a step
    matches: the pieces, with the matched texts between them (a digit, a
    dot and the space that may follow, or a run of line breaks), make up
    the string, and no piece holds a line break or a digit before a dot.
    The empty pieces are dropped; each piece left gives one record
    [{"text": line}] whose line is the piece stripped and decoded.  So
    ["1. Mix\n2. Bake"] gives the records of [Mix] and [Bake]. *)
Theorem normalize_instructions_numbered (s : str) :
  let pieces := step_split 0 [] s in
  (∃ seps : list str,
     s = weave pieces seps
     ∧ length pieces = S (length seps)
     ∧ Forall step_text seps
     ∧ Forall (λ p, no_step p = true ∧ Forall (λ c, is_newline c = false) p)
         pieces)
  ∧ (∃ outs : list PyVal,
       normalize_instructions (PStr s)
         = Ok (PList ((λ t, PDict {[ py "text" := t ]}) <$> outs))
       ∧ Forall2 decoded (filter (λ line, line ≠ []) pieces) outs)
  ∧ normalize_instructions (PStr (py "1. Mix" ++ [10] ++ py "2. Bake"))
    = Ok (PList [PDict {[ py "text" := PStr (py "Mix") ]};
                 PDict {[ py "text" := PStr (py "Bake") ]}]).
Proof.
  intros pieces. split; [apply step_split_weave|]. split; [|reflexivity].
  destruct (for_each_pieces (filter (λ line, line ≠ []) pieces))
    as (outs & Hrun & Houts).
  exists outs. split; [|done].
  unfold normalize_instructions, text_record. fold pieces.
  by rewrite Hrun.
Qed.

(** *** A record from schema.org data *)

(** X20: A record that the extractor takes from the first schema.org candidate
    carries the metadata of the pipeline whatever the candidate said: the
    slug of its name, the source URL, no date, and empty categories, tags,
    notes and extras. *)
Theorem extract_recipe_from_html_stamped (html url : str)
    (d : gmap str PyVal) (others : list PyVal) (r : gmap str PyVal) :
  schema_loads html = Ok (PDict d :: others) →
  extract_recipe_from_html html url = Ok (PDict r) →
  ∃ name : str,
    d !! py "name" = Some (PStr name)
    ∧ r !! py "slug" = Some (PStr (slugify name))
    ∧ r !! py "orgURL" = Some (PStr url)
    ∧ r !! py "categories" = Some (PList [])
    ∧ r !! py "tags" = Some (PList [])
    ∧ r !! py "dateAdded" = Some PNone
    ∧ r !! py "notes" = Some (PList [])
    ∧ r !! py "extras" = Some (PList []).
Proof.
  intros Hloads. unfold extract_recipe_from_html. rewrite Hloads.
  cbn [mbind result_bind is_nil].
  destruct (truthy (PDict d)); cbn [negb]; [|done].
  pose proof (process_recipe_data_union d url) as Hstamp.
  destruct (d !! py "name") as [[| | |name| |]|];
    try (rewrite Hstamp; done).
  destruct Hstamp as (r0 & -> & Hslug & Hurl & Hcat & Htags & Hdate & Hnotes
                      & Hextras & _).
  cbn [mbind result_bind].
  destruct (normalize_data r0) as [r1| |] eqn:Hnorm;
    cbn [mbind result_bind]; [|done..].
  intros [= <-]. exists name. split; [done|].
  destruct (normalize_data_inv r0 r1 Hnorm) as (_ & _ & _ & _ & _ & _ & Hframe).
  repeat split; (rewrite Hframe; [done|]);
    intros Hin; vm_compute in Hin;
    repeat (apply elem_of_cons in Hin as [Hin|Hin]; [discriminate Hin|]);
    by apply not_elem_of_nil in Hin.
Qed.

End Services.

(** ** The claims on concrete inputs *)

Lemma html5_core_short (k v : str) :
  html5_core !! k = Some v → (length v ≤ length k)%nat.
Proof.
  revert k v.
  change (map_Forall (λ k v : str, (length v ≤ length k)%nat) html5_core).
  apply (bool_decide_unpack _). by vm_compute.
Qed.

Lemma unescape_html_terminates_witness :
  ∃ (r : str) (n : nat),
    (∀ fuel, (length (py "&amp;lt;") < fuel)%nat →
       unescape_loop html5_core invalid_charrefs_table invalid_codepoints_table
         fuel (py "&amp;lt;") = Some (r, n))
    ∧ (1 ≤ n ≤ S (length (py "&amp;lt;")))%nat
    ∧ unescape html5_core invalid_charrefs_table invalid_codepoints_table r = r
    ∧ unescape_html html5_core invalid_charrefs_table invalid_codepoints_table
        (PStr (py "&amp;lt;"))
      = if is_nil (py "&amp;lt;") then Ok PNone else Ok (PStr r).
Proof.
  apply (unescape_html_terminates html5_core invalid_charrefs_table
           invalid_codepoints_table html5_core_short (py "&amp;lt;")).
Defined.

Lemma escaped_amp_length (k : nat) : length (escaped_amp k) = S (4 * k).
Proof.
  unfold escaped_amp. rewrite length_cons. f_equal.
  induction k as [|k IH]; [reflexivity|].
  change (concat (replicate (S k) (py "amp;")))
    with (py "amp;" ++ concat (replicate k (py "amp;"))).
  rewrite length_app, IH. change (length (py "amp;")) with 4%nat. lia.
Qed.

(** C6, as the claim has it, fails: no number bounds the passes of the
    loop.  The text [&] escaped [cap] times takes [cap + 1] passes. *)
Lemma unescape_html_no_iteration_cap :
  ¬ ∃ cap : nat, ∀ s : str, ∃ (r : str) (n : nat),
      unescape_loop html5_core invalid_charrefs_table invalid_codepoints_table
        (S (length s)) s = Some (r, n)
      ∧ (n ≤ cap)%nat.
Proof.
  intros [cap Hcap].
  destruct (Hcap (escaped_amp cap)) as (r & n & Hrun & Hn).
  rewrite (unescape_loop_escaped_amp html5_core invalid_charrefs_table
             invalid_codepoints_table cap) in Hrun.
  - injection Hrun as _ <-. lia.
  - reflexivity.
  - rewrite escaped_amp_length. lia.
Qed.

Lemma unescape_html_fixed_point_witness :
  unescape_html html5_core invalid_charrefs_table invalid_codepoints_table
    (PStr (py "&amp;amp;lt;b&amp;amp;gt;")) = Ok (PStr (py "<b>"))
  ∧ ∀ s : str, s ≠ [] →
      ∃ r : str,
        unescape_html html5_core invalid_charrefs_table
          invalid_codepoints_table (PStr s) = Ok (PStr r)
        ∧ unescape html5_core invalid_charrefs_table invalid_codepoints_table r
          = r.
Proof.
  apply (unescape_html_fixed_point html5_core invalid_charrefs_table
           invalid_codepoints_table html5_core_short);
    vm_compute; reflexivity.
Defined.

Lemma normalize_instructions_numbered_witness :
  let s := py "Heat. 1. Mix &amp; stir" ++ [13; 10] ++ py "a. Rest 2.Bake" in
  let pieces := step_split ascii_only 0 [] s in
  pieces = [py "Heat. "; py "Mix &amp; stir"; py "a. Rest "; py "Bake"]
  ∧ (∃ seps : list str,
       s = weave pieces seps
       ∧ length pieces = S (length seps)
       ∧ Forall (step_text ascii_only) seps
       ∧ Forall (λ p, no_step ascii_only p = true
                      ∧ Forall (λ c, is_newline c = false) p) pieces)
  ∧ (∃ outs : list PyVal,
       normalize_instructions html5_core invalid_charrefs_table
         invalid_codepoints_table str_of_value ascii_only (PStr s)
         = Ok (PList ((λ t, PDict {[ py "text" := t ]}) <$> outs))
       ∧ Forall2 (decoded html5_core invalid_charrefs_table
                    invalid_codepoints_table)
           (filter (λ line, line ≠ []) pieces) outs)
  ∧ normalize_instructions html5_core invalid_charrefs_table
      invalid_codepoints_table str_of_value ascii_only (PStr s)
    = Ok (PList [PDict {[ py "text" := PStr (py "Heat.") ]};
                 PDict {[ py "text" := PStr (py "Mix & stir") ]};
                 PDict {[ py "text" := PStr (py "a. Rest") ]};
                 PDict {[ py "text" := PStr (py "Bake") ]}]).
Proof.
  intros s pieces.
  destruct (normalize_instructions_numbered html5_core invalid_charrefs_table
              invalid_codepoints_table str_of_value ascii_only
              html5_core_short s) as (Hweave & Hrun & _).
  split; [vm_compute; reflexivity|].
  split; [exact Hweave|]. split; [exact Hrun|].
  vm_compute. reflexivity.
Defined.

Lemma write_image_read_image_witness :
  let st1 := (write_image newest_first (py "carrot-cake") [x01] (py "jpg")
                one_cake).2 in
  (∃ file, read_image newest_first (py "carrot-cake") st1 = Some file
           ∧ file_data file st1 = Some [x01])
  ∧ ∀ (data2 : bytes) (extension2 : str),
      plain extension2 = true →
      dot_name (py "carrot-cake" ++ py "." ++ extension2) = false →
      let st2 := (write_image newest_first (py "carrot-cake") data2 extension2
                    st1).2 in
      glob_star newest_first (before_dot (py "carrot-cake")) st2
        = [py "carrot-cake" ++ py "." ++ extension2]
      ∧ file_data (py "carrot-cake" ++ py "." ++ extension2) st2 = Some data2.
Proof.
  apply (write_image_read_image newest_first (py "carrot-cake") [x01] (py "jpg")
           one_cake).
  - reflexivity.
  - reflexivity.
  - reflexivity.
  - vm_compute. lia.
Defined.

(** C3, as the claim has it, fails on a store with two files under the
    slug, as two runs of [scrape_image] leave them: [delete_image] removes
    one of them only.  Whatever the order in which the directory lists its
    files, after [write_image("carrot-cake", b"\x01", "jpg")] and
    [write_image("carrot-cake", b"\x02", "png")] two files are left for the
    slug, not one. *)
Lemma write_image_read_image_collision :
  ¬ ∃ scandir_rank : list (str * bytes) → str → N,
      let st1 := (write_image scandir_rank (py "carrot-cake") [x01] (py "jpg")
                    two_cakes).2 in
      let st2 := (write_image scandir_rank (py "carrot-cake") [x02] (py "png")
                    st1).2 in
      length (glob_star scandir_rank (before_dot (py "carrot-cake")) st2)
        = 1%nat.
Proof.
  intros [rank Hone]. cbv zeta in Hone.
  rewrite glob_star_length in Hone.
  destruct (glob_star_two rank (before_dot (py "carrot-cake"))
              (py "carrot-cake.gif") (py "carrot-cake.bmp") two_cakes eq_refl)
    as [Hfirst|Hfirst];
    rewrite (write_image_first rank _ [x01] (py "jpg") _ _ _ Hfirst) in Hone.
  - destruct (glob_star_two rank (before_dot (py "carrot-cake"))
                (py "carrot-cake.bmp") (py "carrot-cake.jpg")
                (append_file (py "carrot-cake" ++ py "." ++ py "jpg") [x01]
                   (unlink (py "carrot-cake.gif") two_cakes)) eq_refl)
      as [Hnext|Hnext];
      rewrite (write_image_first rank _ [x02] (py "png") _ _ _ Hnext) in Hone;
      vm_compute in Hone; discriminate Hone.
  - destruct (glob_star_two rank (before_dot (py "carrot-cake"))
                (py "carrot-cake.gif") (py "carrot-cake.jpg")
                (append_file (py "carrot-cake" ++ py "." ++ py "jpg") [x01]
                   (unlink (py "carrot-cake.bmp") two_cakes)) eq_refl)
      as [Hnext|Hnext];
      rewrite (write_image_first rank _ [x02] (py "png") _ _ _ Hnext) in Hone;
      vm_compute in Hone; discriminate Hone.
Qed.

(** The same failure shows with one file of the slug and one file of a
    longer slug that starts with it, on a file system that lists the
    longer name first: the write deletes the image of the other recipe
    and appends to the old image of the slug. *)
Lemma write_image_read_image_longer_slug :
  let st1 := (write_image oldest_first (py "carrot-cake") [x01] (py "jpg")
                deluxe_first).2 in
  read_image oldest_first (py "carrot-cake") st1 = Some (py "carrot-cake.jpg")
  ∧ file_data (py "carrot-cake.jpg") st1 = Some [x09; x01]
  ∧ file_data (py "carrot-cake-deluxe.jpg") st1 = None.
Proof. repeat split; vm_compute; reflexivity. Qed.

Lemma scrape_image_doubled_dot_witness :
  let name := py "chili" ++ py "." ++ path_suffix (py "/y.jpg") in
  let st' := write_file name [x01; x02; x03] [] in
  scrape_image http_path fetch_ok (PStr (py "http://x/y.jpg"))
    (PStr (py "chili")) [] = (Ok (Some name), st')
  ∧ name = py "chili..jpg"
  ∧ file_data name st' = Some [x01; x02; x03]
  ∧ read_image newest_first (py "chili") st' = Some name
  ∧ is_file (py "chili") st' = false.
Proof.
  destruct (scrape_image_doubled_dot newest_first http_path fetch_ok
              (py "http://x/y.jpg")
              (py "chili") (py "/y.jpg")
              {| status_code := 200; text := []; raw := [x01; x02; x03] |} [])
    as (Hrun & Hdata & _); try (vm_compute; reflexivity).
  { vm_compute. discriminate. }
  repeat split; try assumption; vm_compute; reflexivity.
Defined.

Lemma download_image_for_recipe_catches_witness :
  ∃ d' : gmap str PyVal,
    download_image_for_recipe http_path fetch_ok
      (PDict {[ py "slug" := PStr (py "chili") ]}) []
      = (Ok (PDict d'), [])
    ∧ d' !! py "image" = Some PNone
    ∧ ∀ k : str, k ≠ py "image" →
        d' !! k = ({[ py "slug" := PStr (py "chili") ]} : gmap str PyVal) !! k.
Proof.
  apply (download_image_for_recipe_catches http_path fetch_ok
           {[ py "slug" := PStr (py "chili") ]} [] [] TypeError).
  vm_compute. reflexivity.
Defined.

Lemma opengraph_fallback_witness :
  extract_recipe_from_html html5_core invalid_charrefs_table
    invalid_codepoints_table str_of_value ascii_only slugify_ascii
    no_recipes no_recipes page_url no_opengraph bare_page (py "http://x/chili")
  = Raise IndexError
  ∧ extract_recipe_from_html html5_core invalid_charrefs_table
      invalid_codepoints_table str_of_value ascii_only slugify_ascii
      no_recipes no_recipes page_url untitled_opengraph bare_page
      (py "http://x/chili")
    = Raise TypeError
  ∧ ∃ r : gmap str PyVal,
      extract_recipe_from_html html5_core invalid_charrefs_table
        invalid_codepoints_table str_of_value ascii_only slugify_ascii
        no_recipes no_recipes page_url chili_opengraph bare_page
        (py "http://x/chili")
      = Ok (PDict r)
      ∧ r !! py "recipeIngredient"
          = Some (PList [PStr (py "Could not detect ingredients")])
      ∧ r !! py "recipeInstructions"
          = Some (PList [PDict {[ py "text" :=
                                    PStr (py "Could not detect instructions") ]}])
      ∧ r !! py "recipeYield" = Some (PStr [])
      ∧ r !! py "slug" = Some (PStr (py "chili"))
      ∧ r !! py "name" = Some (PStr (py "Chili")).
Proof.
  split; [|split].
  - apply (opengraph_fallback html5_core invalid_charrefs_table
             invalid_codepoints_table str_of_value ascii_only slugify_ascii
             no_recipes no_recipes page_url no_opengraph bare_page
             (py "http://x/chili")); reflexivity.
  - apply (proj1 (proj2 (opengraph_fallback html5_core invalid_charrefs_table
             invalid_codepoints_table str_of_value ascii_only slugify_ascii
             no_recipes no_recipes page_url untitled_opengraph bare_page
             (py "http://x/chili") eq_refl eq_refl))
             [(py "og:image", py "http://x/y.jpg")] []); reflexivity.
  - apply (proj2 (proj2 (opengraph_fallback html5_core invalid_charrefs_table
             invalid_codepoints_table str_of_value ascii_only slugify_ascii
             no_recipes no_recipes page_url chili_opengraph bare_page
             (py "http://x/chili") eq_refl eq_refl))
             [(py "og:title", py "Chili"); (py "og:image", py "http://x/y.jpg")]
             [] (py "Chili")); reflexivity.
Defined.

(** The slug of the example: [og:title="Chili"] gives ["chili"]. *)
Example slugify_ascii_chili : slugify_ascii (py "Chili") = py "chili".
Proof. reflexivity. Qed.

(** C1 on a concrete input: an ISO 8601 duration that arrives as a string
    is lost. *)
Example normalize_time_duration :
  normalize_time str_of_value (PStr (py "PT30M")) = PNone.
Proof. reflexivity. Qed.

(** ** The further properties on concrete inputs *)

(** X21: Once the HTML has a candidate, the extractor reads that candidate and
    nothing else: not the candidates after it, not the retry by URL, not
    the OpenGraph data. *)
Theorem extract_recipe_from_html_first_candidate
    (html5 : gmap str str) (invalid_charrefs : gmap N cp)
    (invalid_codepoints : N → bool) (py_str : PyVal → str)
    (other_decimal : cp → bool) (slugify : str → str)
    (loads loads' scrape_url scrape_url' : str → result (list PyVal))
    (base_url base_url' : str → str → str)
    (opengraph opengraph' : str → str → result (list (list (str * str))))
    (html url : str) (candidate : PyVal) (others others' : list PyVal) :
  loads html = Ok (candidate :: others) →
  loads' html = Ok (candidate :: others') →
  extract_recipe_from_html html5 invalid_charrefs invalid_codepoints py_str
    other_decimal slugify loads scrape_url base_url opengraph html url
  = extract_recipe_from_html html5 invalid_charrefs invalid_codepoints py_str
      other_decimal slugify loads' scrape_url' base_url' opengraph' html url.
Proof.
  intros Hloads Hloads'. unfold extract_recipe_from_html.
  by rewrite Hloads, Hloads'.
Qed.

Lemma extract_recipe_from_html_first_candidate_witness :
  extract_recipe_from_html html5_core invalid_charrefs_table
    invalid_codepoints_table str_of_value ascii_only slugify_ascii
    chili_page no_recipes page_url no_opengraph [] (py "http://x/chili")
  = extract_recipe_from_html html5_core invalid_charrefs_table
      invalid_codepoints_table str_of_value ascii_only slugify_ascii
      chili_page_twice chili_page page_url chili_opengraph []
      (py "http://x/chili").
Proof.
  apply (extract_recipe_from_html_first_candidate _ _ _ _ _ _ chili_page
           chili_page_twice no_recipes chili_page page_url page_url
           no_opengraph chili_opengraph [] (py "http://x/chili")
           (PDict chili_recipe) [] [PDict chili_recipe]);
    reflexivity.
Defined.

Lemma delete_image_first_only_witness :
  file_data (py "carrot-cake.bmp")
    (delete_image newest_first (py "carrot-cake") two_cakes) = None
  ∧ ∀ n : str, n ≠ py "carrot-cake.bmp" →
      file_data n (delete_image newest_first (py "carrot-cake") two_cakes)
      = file_data n two_cakes.
Proof.
  apply (delete_image_first_only newest_first (py "carrot-cake") two_cakes).
  reflexivity.
Defined.

Lemma read_image_found_witness :
  (read_image oldest_first (py "carrot-cake.png") two_cakes = None
     ↔ glob_star oldest_first (before_dot (py "carrot-cake.png")) two_cakes = [])
  ∧ ∀ file : str,
      read_image oldest_first (py "carrot-cake.png") two_cakes = Some file →
      is_Some (file_data file two_cakes)
      ∧ before_dot (py "carrot-cake.png") `prefix_of` file.
Proof.
  apply (read_image_found oldest_first (py "carrot-cake.png") two_cakes).
  reflexivity.
Defined.

Lemma write_image_appends_witness :
  file_data (py "carrot-cake" ++ py "." ++ py "jpg")
    (write_image oldest_first (py "carrot-cake") [x01] (py "jpg")
       deluxe_first).2
    = Some ([x09] ++ [x01])
  ∧ file_data (py "carrot-cake-deluxe.jpg")
      (write_image oldest_first (py "carrot-cake") [x01] (py "jpg")
         deluxe_first).2 = None.
Proof.
  apply (write_image_appends oldest_first (py "carrot-cake") [x01] [x09]
           (py "jpg") (py "carrot-cake-deluxe.jpg") [py "carrot-cake.jpg"]
           deluxe_first).
  - reflexivity.
  - reflexivity.
  - reflexivity.
  - vm_compute. discriminate.
  - reflexivity.
Defined.

Lemma scrape_image_failed_fetch_witness :
  scrape_image http_path fetch_missing (PStr (py "http://x/y.jpg"))
    (PStr (py "chili")) one_cake = (Ok None, one_cake).
Proof.
  apply (scrape_image_failed_fetch http_path fetch_missing
           (py "http://x/y.jpg") (py "chili") (py "/y.jpg") one_cake eq_refl).
  vm_compute. discriminate.
Defined.


Lemma download_image_for_recipe_record_witness :
  let d : gmap str PyVal :=
    {[ py "slug" := PStr (py "chili"); py "image" := PStr (py "http://x/y.jpg") ]} in
  let scraped :=
    scrape_image http_path fetch_ok (dict_get d (py "image"))
      (dict_get d (py "slug")) [] in
  ∃ d' : gmap str PyVal,
    download_image_for_recipe http_path fetch_ok (PDict d) []
      = (Ok (PDict d'), scraped.2)
    ∧ (∀ k : str, k ≠ py "image" → d' !! k = d !! k)
    ∧ d' !! py "image" =
        Some match scraped.1 with
             | Ok (Some img_path) => PStr (path_name img_path)
             | _ => PNone
             end.
Proof.
  apply (download_image_for_recipe_record http_path fetch_ok
           {[ py "slug" := PStr (py "chili");
              py "image" := PStr (py "http://x/y.jpg") ]} []).
  vm_compute. discriminate.
Defined.

Lemma process_recipe_url_empty_candidate_witness :
  extract_recipe_from_html html5_core invalid_charrefs_table
    invalid_codepoints_table str_of_value ascii_only slugify_ascii
    empty_candidate no_recipes page_url no_opengraph [] (py "http://x/chili")
    = Ok (PStr (py "fail"))
  ∧ process_recipe_url html5_core invalid_charrefs_table
      invalid_codepoints_table str_of_value ascii_only slugify_ascii
      empty_candidate no_recipes page_url no_opengraph http_path fetch_ok
      (py "http://x/chili") one_cake
    = (Raise TypeError, one_cake).
Proof.
  apply (process_recipe_url_empty_candidate html5_core invalid_charrefs_table
           invalid_codepoints_table str_of_value ascii_only slugify_ascii
           empty_candidate no_recipes page_url no_opengraph http_path fetch_ok
           (py "http://x/chili")
           {| status_code := 200; text := []; raw := [x01; x02; x03] |}
           (PDict ∅) [] one_cake);
    reflexivity.
Defined.

Lemma process_recipe_url_keeps_files_witness :
  is_Some (file_data (py "tomato-soup.jpg")
    (process_recipe_url html5_core invalid_charrefs_table
       invalid_codepoints_table str_of_value ascii_only slugify_ascii
       no_recipes no_recipes page_url chili_opengraph http_path fetch_ok
       (py "http://x/chili") one_cake).2).
Proof.
  apply process_recipe_url_keeps_files. by exists [x07].
Defined.

Lemma normalize_instructions_first_section_witness :
  let section : gmap str PyVal :=
    {[ py "@type" := PStr (py "HowToSection");
       py "itemListElement" := PList [] ]} in
  normalize_instructions html5_core invalid_charrefs_table
    invalid_codepoints_table str_of_value ascii_only
    (PList [PDict section; PDict section])
  = normalize_instructions html5_core invalid_charrefs_table
      invalid_codepoints_table str_of_value ascii_only
      (PList [PDict section]).
Proof.
  apply normalize_instructions_first_section. reflexivity.
Defined.

Lemma step_split_two_digits_witness :
  step_split ascii_only 0 [] (py "10. Mix")
  = py "1" :: step_split ascii_only 0 [] (py "Mix").
Proof.
  apply (step_split_two_digits ascii_only 49 48 (py "Mix")); reflexivity.
Defined.

Lemma normalize_data_fields_witness :
  ∃ r : gmap str PyVal,
    normalize_data html5_core invalid_charrefs_table invalid_codepoints_table
      str_of_value ascii_only chili_recipe = Ok r
    ∧ r !! py "totalTime" = Some PNone
    ∧ r !! py "name" = chili_recipe !! py "name".
Proof.
  destruct (normalize_data html5_core invalid_charrefs_table
              invalid_codepoints_table str_of_value ascii_only chili_recipe)
    as [r| |] eqn:Hrun; [|by vm_compute in Hrun..].
  exists r. split; [done|].
  destruct (normalize_data_fields html5_core invalid_charrefs_table
              invalid_codepoints_table str_of_value ascii_only chili_recipe r
              Hrun) as (_ & _ & _ & Htotal & _ & _ & Hframe).
  split; [exact Htotal|]. apply Hframe.
  intros Hin. vm_compute in Hin.
  repeat (apply elem_of_cons in Hin as [Hin|Hin]; [discriminate Hin|]).
  by apply not_elem_of_nil in Hin.
Defined.

Lemma normalize_ingredients_lines_witness :
  ∃ outs : list PyVal,
    normalize_ingredients html5_core invalid_charrefs_table
      invalid_codepoints_table
      (PList (PStr <$> [py " beans &amp; rice "; py "  "])) = Ok (PList outs)
    ∧ Forall2 (decoded html5_core invalid_charrefs_table
                 invalid_codepoints_table)
        [py " beans &amp; rice "; py "  "] outs.
Proof.
  apply (normalize_ingredients_lines html5_core invalid_charrefs_table
           invalid_codepoints_table html5_core_short).
Defined.

Lemma normalize_instructions_lines_witness :
  (∃ outs : list PyVal,
     normalize_instructions html5_core invalid_charrefs_table
       invalid_codepoints_table str_of_value ascii_only
       (PList (PStr <$> py "Mix" :: [py "Cook"]))
       = Ok (PList (text_record <$> outs))
     ∧ Forall2 (decoded html5_core invalid_charrefs_table
                  invalid_codepoints_table)
         (py "Mix" :: [py "Cook"]) outs)
  ∧ ∀ (v : PyVal) (after : list PyVal),
      match v with
      | PStr _ => True
      | _ =>
          normalize_instructions html5_core invalid_charrefs_table
            invalid_codepoints_table str_of_value ascii_only
            (PList ((PStr <$> py "Mix" :: [py "Cook"]) ++ v :: after))
          = Raise AttributeError
      end.
Proof.
  apply (normalize_instructions_lines html5_core invalid_charrefs_table
           invalid_codepoints_table str_of_value ascii_only html5_core_short).
Defined.

Lemma extract_recipe_from_html_stamped_witness :
  ∃ r : gmap str PyVal,
    extract_recipe_from_html html5_core invalid_charrefs_table
      invalid_codepoints_table str_of_value ascii_only slugify_ascii
      chili_page no_recipes page_url no_opengraph [] (py "http://x/chili")
      = Ok (PDict r)
    ∧ r !! py "slug" = Some (PStr (slugify_ascii (py "Chili")))
    ∧ r !! py "tags" = Some (PList []).
Proof.
  destruct (extract_recipe_from_html html5_core invalid_charrefs_table
              invalid_codepoints_table str_of_value ascii_only slugify_ascii
              chili_page no_recipes page_url no_opengraph []
              (py "http://x/chili"))
    as [[| | | | |r]| |] eqn:Hrun; try (by vm_compute in Hrun).
  exists r. split; [done|].
  destruct (extract_recipe_from_html_stamped html5_core invalid_charrefs_table
              invalid_codepoints_table str_of_value ascii_only slugify_ascii
              chili_page no_recipes page_url no_opengraph []
              (py "http://x/chili") chili_recipe [] r eq_refl Hrun)
    as (name & Hname & Hslug & _ & _ & Htags & _).
  vm_compute in Hname. injection Hname as <-. by split.
Defined.
